(** * Adaptive expressions: the function utilities of the evaluation engine

    A shallow embedding of
    [libraries/adaptive-expressions/adaptive/expressions/function_utils.py]
    (class [FunctionUtils]) and of the built-in functions [data_uri.py],
    [format_ticks.py] and [uri_port.py], with the properties the
    specification states about them.

    Python values are a tagged sum, a Python [float] is a binary64 number
    (Rocq's primitive floats), a Python [int] is a [Z], a [str] is the
    sequence of its code points.  A call that can raise returns a [res]:
    [Ok] with the result or [Raise] with the exception; the evaluation of a
    node can raise as any other call. *)

From Stdlib Require Import ZArith NArith QArith Qabs List Bool Lia Floats.
From Stdlib.Strings Require Import Byte.
Import ListNotations.

#[local] Set Warnings "-register-all,-inexact-float".

(** ** Strings *)

(** A [str]: its code points, in order.  A code point is a number below
    [0x110000]; the surrogates, from [0xD800] to [0xDFFF], are code points
    as any other, and a [str] can hold them. *)
Inductive str : Type :=
| EmptyStr
| Str (c : N) (s : str).

(** The literals of this file are ASCII: every byte of a literal is the code
    point of a character. *)
Fixpoint str_of_bytes (bs : list byte) : str :=
  match bs with
  | [] => EmptyStr
  | b :: bs' => Str (Byte.to_N b) (str_of_bytes bs')
  end.

Fixpoint bytes_of_str (s : str) : option (list byte) :=
  match s with
  | EmptyStr => Some []
  | Str c s' =>
      match Byte.of_N c, bytes_of_str s' with
      | Some b, Some bs => Some (b :: bs)
      | _, _ => None
      end
  end.

Declare Scope str_scope.
Delimit Scope str_scope with str.
Bind Scope str_scope with str.
String Notation str str_of_bytes bytes_of_str : str_scope.

(** [a + b]. *)
Fixpoint append (a b : str) : str :=
  match a with
  | EmptyStr => b
  | Str c a' => Str c (append a' b)
  end.

Infix "++" := append (right associativity, at level 60) : str_scope.

#[local] Open Scope str_scope.
#[local] Open Scope Z_scope.

(** [a == b] for two [str]. *)
Fixpoint str_eqb (a b : str) : bool :=
  match a, b with
  | EmptyStr, EmptyStr => true
  | Str c a', Str d b' => (c =? d)%N && str_eqb a' b'
  | _, _ => false
  end.

(** The code point of a one-character literal. *)
Definition chr (s : str) : N :=
  match s with
  | Str c _ => c
  | EmptyStr => 0%N
  end.

(** ** Python exceptions and results *)

(** The exceptions the embedded code can raise.  [str(err)] is the message;
    the constructor is the exception's class. *)
Inductive exn : Type :=
| TypeError (msg : str)
| AttributeError (msg : str)
| IndexError (msg : str)
| UnboundLocalError (msg : str)
| OverflowError (msg : str)
| UnicodeEncodeError (msg : str)
| Exception (msg : str).

Definition str_exn (e : exn) : str :=
  match e with
  | TypeError m | AttributeError m | IndexError m
  | UnboundLocalError m | OverflowError m | UnicodeEncodeError m
  | Exception m => m
  end.

Inductive res (A : Type) : Type :=
| Ok (a : A)
| Raise (e : exn).

Arguments Ok {A} a.
Arguments Raise {A} e.

Definition bind {A B : Type} (r : res A) (k : A -> res B) : res B :=
  match r with
  | Ok a => k a
  | Raise e => Raise e
  end.

Notation "x <- r ;; k" := (bind r (fun x => k))
  (at level 61, r at next level, right associativity).

(** ** The value space *)

(** A [set] is kept by its elements in the order in which it is iterated;
    the keys of a [dict] are [str], in insertion order. *)
Inductive value : Type :=
| VNone
| VBool (b : bool)
| VInt (n : Z)
| VFloat (f : float)
| VStr (s : str)
| VBytes (bs : list byte)
| VList (items : list value)
| VTuple (items : list value)
| VSet (items : list value)
| VDict (entries : list (str * value))
| VObject (id : nat).

(** [isinstance] against the classes the code tests. [bool] is a subclass of
    [int], and [int] and [float] are registered as [numbers.Number]. *)
Definition is_none (v : value) : bool :=
  match v with VNone => true | _ => false end.

Definition isinstance_bool (v : value) : bool :=
  match v with VBool _ => true | _ => false end.

Definition isinstance_int (v : value) : bool :=
  match v with VBool _ | VInt _ => true | _ => false end.

Definition isinstance_float (v : value) : bool :=
  match v with VFloat _ => true | _ => false end.

Definition isinstance_Number (v : value) : bool :=
  match v with VBool _ | VInt _ | VFloat _ => true | _ => false end.

Definition isinstance_str (v : value) : bool :=
  match v with VStr _ => true | _ => false end.

Definition isinstance_list (v : value) : bool :=
  match v with VList _ => true | _ => false end.

Definition isinstance_dict (v : value) : bool :=
  match v with VDict _ => true | _ => false end.

(** ** Numbers *)

(** [float(n)] for an [int]: the nearest binary64 number, ties to even;
    [OverflowError] when that is beyond the largest one. *)
Definition float_of_int (n : Z) : res float :=
  match binary_normalize prec emax n 0 false with
  | S754_infinity _ => Raise (OverflowError "int too large to convert to float")
  | sf => Ok (SF2Prim sf)
  end.

Definition int_of_bool (b : bool) : Z := if b then 1 else 0.

(** [float(v)] for a number. *)
Definition py_float (v : value) : res float :=
  match v with
  | VBool b => float_of_int (int_of_bool b)
  | VInt n => float_of_int n
  | VFloat f => Ok f
  | _ => Raise (TypeError "float() argument must be a string or a real number")
  end.

(** [float.is_integer()]: finite, with no fractional part. *)
Definition float_is_integer (f : float) : bool :=
  match Prim2SF f with
  | S754_zero _ => true
  | S754_finite _ m e => if 0 <=? e then true else Z.pos m mod 2 ^ (- e) =? 0
  | _ => false
  end.

(** [int(f)] for a finite [float]: truncation towards zero. *)
Definition int_of_float (f : float) : res Z :=
  match Prim2SF f with
  | S754_zero _ => Ok 0
  | S754_finite s m e =>
      let a := if 0 <=? e then Z.pos m * 2 ^ e else Z.pos m / 2 ^ (- e) in
      Ok (if s then - a else a)
  | S754_infinity _ => Raise (OverflowError "cannot convert float infinity to integer")
  | S754_nan => Raise (Exception "cannot convert float NaN to integer")
  end.

(** [int(v)] for a number. *)
Definition py_int (v : value) : res Z :=
  match v with
  | VBool b => Ok (int_of_bool b)
  | VInt n => Ok n
  | VFloat f => int_of_float f
  | _ => Raise (TypeError "int() argument must be a string or a real number")
  end.

(** [n == f] for an [int] and a [float]: the comparison is exact. *)
Definition int_eq_float (n : Z) (f : float) : bool :=
  match Prim2SF f with
  | S754_zero _ => n =? 0
  | S754_finite s m e =>
      let a := if s then Z.neg m else Z.pos m in
      if 0 <=? e then n =? a * 2 ^ e else n * 2 ^ (- e) =? a
  | _ => false
  end.

(** [a == b] for two numbers. *)
Definition num_eq (a b : value) : bool :=
  match a, b with
  | VFloat f, VFloat g => PrimFloat.eqb f g
  | VFloat f, VBool c => int_eq_float (int_of_bool c) f
  | VFloat f, VInt n => int_eq_float n f
  | VBool c, VFloat g => int_eq_float (int_of_bool c) g
  | VInt n, VFloat g => int_eq_float n g
  | VBool c, VBool d => int_of_bool c =? int_of_bool d
  | VBool c, VInt n => int_of_bool c =? n
  | VInt n, VBool d => n =? int_of_bool d
  | VInt n, VInt m => n =? m
  | _, _ => false
  end.

(** ** [operator.eq] *)

Fixpoint lookup (k : str) (d : list (str * value)) : option value :=
  match d with
  | [] => None
  | (k', v) :: d' => if str_eqb k k' then Some v else lookup k d'
  end.

Definition byte_eqb (a b : byte) : bool :=
  (Byte.to_N a =? Byte.to_N b)%N.

Fixpoint bytes_eqb (a b : list byte) : bool :=
  match a, b with
  | [], [] => true
  | x :: a', y :: b' => byte_eqb x y && bytes_eqb a' b'
  | _, _ => false
  end.

(** [a == b]: numbers by value, strings and byte strings by content, lists
    and tuples element by element, sets by their elements whatever the
    order, mappings key by key, an opaque object by identity; values of
    different kinds are not equal. *)
Fixpoint py_eq (a b : value) {struct a} : bool :=
  let fix seq_eq (xs ys : list value) {struct xs} : bool :=
    match xs, ys with
    | [], [] => true
    | x :: xs', y :: ys' => py_eq x y && seq_eq xs' ys'
    | _, _ => false
    end in
  let fix all_in (xs ys : list value) {struct xs} : bool :=
    match xs with
    | [] => true
    | x :: xs' => existsb (py_eq x) ys && all_in xs' ys
    end in
  let fix entries_in (xs : list (str * value)) (d : list (str * value))
      {struct xs} : bool :=
    match xs with
    | [] => true
    | (k, v) :: xs' =>
        match lookup k d with
        | Some w => py_eq v w && entries_in xs' d
        | None => false
        end
    end in
  match a, b with
  | VNone, VNone => true
  | VStr s, VStr t => str_eqb s t
  | VBytes s, VBytes t => bytes_eqb s t
  | VList xs, VList ys => seq_eq xs ys
  | VTuple xs, VTuple ys => seq_eq xs ys
  | VSet xs, VSet ys =>
      (Nat.eqb (List.length xs) (List.length ys)) && all_in xs ys
  | VDict d, VDict d' =>
      (Nat.eqb (List.length d) (List.length d')) && entries_in d d'
  | VObject i, VObject j => Nat.eqb i j
  | (VBool _ | VInt _ | VFloat _), (VBool _ | VInt _ | VFloat _) => num_eq a b
  | _, _ => false
  end.

(** ** Operations on strings *)

(** The decimal digits of a number, the first digit first. *)
Fixpoint str_uint (d : Decimal.uint) : str :=
  match d with
  | Decimal.Nil => EmptyStr
  | Decimal.D0 d' => Str (chr "0") (str_uint d')
  | Decimal.D1 d' => Str (chr "1") (str_uint d')
  | Decimal.D2 d' => Str (chr "2") (str_uint d')
  | Decimal.D3 d' => Str (chr "3") (str_uint d')
  | Decimal.D4 d' => Str (chr "4") (str_uint d')
  | Decimal.D5 d' => Str (chr "5") (str_uint d')
  | Decimal.D6 d' => Str (chr "6") (str_uint d')
  | Decimal.D7 d' => Str (chr "7") (str_uint d')
  | Decimal.D8 d' => Str (chr "8") (str_uint d')
  | Decimal.D9 d' => Str (chr "9") (str_uint d')
  end.

(** [str(n)] for an [int]. *)
Definition str_int (n : Z) : str :=
  match Z.to_int n with
  | Decimal.Pos d => str_uint d
  | Decimal.Neg d => "-" ++ str_uint d
  end.

(** [s.rstrip(".")]: the trailing dots are dropped. *)
Fixpoint rstrip_dot (s : str) : str :=
  match s with
  | EmptyStr => EmptyStr
  | Str c s' =>
      match rstrip_dot s' with
      | EmptyStr => if (c =? chr ".")%N then EmptyStr else Str c EmptyStr
      | r => Str c r
      end
  end.

(** [s.replace(".[", "[")]: every occurrence, left to right. *)
Fixpoint replace_dot_bracket (s : str) : str :=
  match s with
  | EmptyStr => EmptyStr
  | Str c s' =>
      match s' with
      | Str d s'' =>
          if (c =? chr ".")%N && (d =? chr "[")%N
          then Str (chr "[") (replace_dot_bracket s'')
          else Str c (replace_dot_bracket s')
      | EmptyStr => Str c EmptyStr
      end
  end.

(** ["," in s]. *)
Fixpoint has_comma (s : str) : bool :=
  match s with
  | EmptyStr => false
  | Str c s' => (c =? chr ",")%N || has_comma s'
  end.

(** [if error:] for an error that is a [str] or [None]: the empty string
    counts as no error. *)
Definition truthy (error : option str) : bool :=
  match error with
  | Some EmptyStr | None => false
  | Some _ => true
  end.

(** [v + s] for a [str] literal [s]: concatenation when [v] is a [str], a
    [TypeError] for every other value of the value space. *)
Definition add_str (v : value) (s : str) : res str :=
  match v with
  | VStr t => Ok (t ++ s)
  | _ => Raise (TypeError "unsupported operand type(s) for +")
  end.

(** ** Byte strings *)

Definition byte_of_N (n : N) : byte :=
  match Byte.of_N n with
  | Some b => b
  | None => x00
  end.

(** A surrogate: a code point from [0xD800] to [0xDFFF]. *)
Definition is_surrogate (c : N) : bool :=
  ((55296 <=? c) && (c <=? 57343))%N.

(** The UTF-8 form of a code point that is not a surrogate: one byte below
    [0x80], two below [0x800], three below [0x10000], four from there on. *)
Definition utf8_char (c : N) : list byte :=
  (if c <? 128 then [byte_of_N c]
   else if c <? 2048 then
     [byte_of_N (192 + c / 64); byte_of_N (128 + c mod 64)]
   else if c <? 65536 then
     [byte_of_N (224 + c / 4096); byte_of_N (128 + c / 64 mod 64);
      byte_of_N (128 + c mod 64)]
   else
     [byte_of_N (240 + c / 262144); byte_of_N (128 + c / 4096 mod 64);
      byte_of_N (128 + c / 64 mod 64); byte_of_N (128 + c mod 64)])%N.

Fixpoint utf8_bytes (s : str) : list byte :=
  match s with
  | EmptyStr => []
  | Str c s' => (utf8_char c ++ utf8_bytes s')%list
  end.

(** The surrogates a [str] starts with. *)
Fixpoint surrogates (s : str) : list N :=
  match s with
  | Str c s' => if is_surrogate c then c :: surrogates s' else []
  | EmptyStr => []
  end.

(** The first run of surrogates of a [str], from the position [i] of its
    first character on: the position of the run and its code points. *)
Fixpoint first_surrogates (s : str) (i : Z) : option (Z * list N) :=
  match s with
  | EmptyStr => None
  | Str c s' =>
      if is_surrogate c then Some (i, c :: surrogates s')
      else first_surrogates s' (i + 1)
  end.

(** A hexadecimal digit, in lower case. *)
Definition hex_digit (n : N) : N :=
  (if n <? 10 then chr "0" + n else chr "a" + (n - 10))%N.

(** The escape [\uXXXX] of a code point below [0x10000], as [repr] shows a
    surrogate. *)
Definition escape_u (c : N) : str :=
  Str (chr "\") (Str (chr "u")
    (Str (hex_digit (c / 4096)) (Str (hex_digit (c / 256 mod 16))
       (Str (hex_digit (c / 16 mod 16)) (Str (hex_digit (c mod 16))
          EmptyStr)))))%N.

(** [str(err)] of the [UnicodeEncodeError] of the codec for the surrogates
    [run] found at the position [start]. *)
Definition surrogates_not_allowed (start : Z) (run : list N) : str :=
  match run with
  | [c] =>
      "'utf-8' codec can't encode character '" ++ escape_u c
      ++ "' in position " ++ str_int start ++ ": surrogates not allowed"
  | _ =>
      "'utf-8' codec can't encode characters in position " ++ str_int start
      ++ "-" ++ str_int (start + Z.of_nat (List.length run) - 1)
      ++ ": surrogates not allowed"
  end.

(** [s.encode(encoding="utf-8")]: the bytes of the code points, and
    [UnicodeEncodeError] for a [str] that holds a surrogate. *)
Definition utf8_encode (s : str) : res (list byte) :=
  match first_surrogates s 0 with
  | Some (start, run) =>
      Raise (UnicodeEncodeError (surrogates_not_allowed start run))
  | None => Ok (utf8_bytes s)
  end.

(** The base64 alphabet: [A-Z], [a-z], [0-9], [+], [/]. *)
Definition b64_char (i : N) : N :=
  (if i <? 26 then chr "A" + i
   else if i <? 52 then chr "a" + (i - 26)
   else if i <? 62 then chr "0" + (i - 52)
   else if i =? 62 then chr "+"
   else chr "/")%N.

(** [base64.b64encode(bs).decode()]: three bytes give four characters, and
    the last group is padded with [=]. *)
Fixpoint b64encode (bs : list byte) : str :=
  match bs with
  | [] => EmptyStr
  | [a] =>
      let a := Byte.to_N a in
      Str (b64_char (a / 4))
        (Str (b64_char (a mod 4 * 16)) "==")
  | [a; b] =>
      let a := Byte.to_N a in
      let b := Byte.to_N b in
      Str (b64_char (a / 4))
        (Str (b64_char (a mod 4 * 16 + b / 16))
           (Str (b64_char (b mod 16 * 4)) "="))
  | a :: b :: c :: bs' =>
      let a := Byte.to_N a in
      let b := Byte.to_N b in
      let c := Byte.to_N c in
      Str (b64_char (a / 4))
        (Str (b64_char (a mod 4 * 16 + b / 16))
           (Str (b64_char (b mod 16 * 4 + c / 64))
              (Str (b64_char (c mod 64)) (b64encode bs'))))
  end%N.

(** The place of a character in the base64 alphabet. *)
Definition b64_index (c : N) : option N :=
  (if (65 <=? c) && (c <=? 90) then Some (c - 65)
   else if (97 <=? c) && (c <=? 122) then Some (c - 71)
   else if (48 <=? c) && (c <=? 57) then Some (c + 4)
   else if c =? 43 then Some 62
   else if c =? 47 then Some 63
   else None)%N.

(** The padding character. *)
Definition is_pad (c : N) : bool := (c =? chr "=")%N.

(** [base64.b64decode(s)]: the bytes of a padded base64 text, the inverse
    that says what [b64encode] encodes. *)
Fixpoint b64decode (s : str) : option (list byte) :=
  match s with
  | EmptyStr => Some []
  | Str c1 (Str c2 (Str c3 (Str c4 s'))) =>
      match b64_index c1, b64_index c2 with
      | Some i1, Some i2 =>
          let b1 := byte_of_N (i1 * 4 + i2 / 16) in
          match b64_index c3, b64_index c4 with
          | Some i3, Some i4 =>
              let b2 := byte_of_N (i2 mod 16 * 16 + i3 / 4) in
              let b3 := byte_of_N (i3 mod 4 * 64 + i4) in
              option_map (fun bs => b1 :: b2 :: b3 :: bs) (b64decode s')
          | Some i3, None =>
              let b2 := byte_of_N (i2 mod 16 * 16 + i3 / 4) in
              if is_pad c4 && str_eqb s' EmptyStr then Some [b1; b2] else None
          | None, _ =>
              if is_pad c3 && is_pad c4 && str_eqb s' EmptyStr then Some [b1]
              else None
          end
      | _, _ => None
      end
  | _ => None
  end%N.

(** A continuation byte of UTF-8: from [0x80] to [0xBF]. *)
Definition is_continuation (b : byte) : bool :=
  ((128 <=? Byte.to_N b) && (Byte.to_N b <? 192))%N.

(** [bs.decode("utf-8")]: the code points of well-formed UTF-8, the shortest
    form of each and no surrogate; the inverse that says what [utf8_encode]
    encodes. *)
Fixpoint utf8_decode (bs : list byte) : option str :=
  match bs with
  | [] => Some EmptyStr
  | b0 :: bs1 =>
      let n0 := Byte.to_N b0 in
      if n0 <? 128 then option_map (Str n0) (utf8_decode bs1)
      else if (194 <=? n0) && (n0 <? 224) then
        match bs1 with
        | b1 :: bs2 =>
            let c := (n0 - 192) * 64 + (Byte.to_N b1 - 128) in
            if is_continuation b1
            then option_map (Str c) (utf8_decode bs2)
            else None
        | _ => None
        end
      else if (224 <=? n0) && (n0 <? 240) then
        match bs1 with
        | b1 :: b2 :: bs3 =>
            let c := (n0 - 224) * 4096 + (Byte.to_N b1 - 128) * 64
                     + (Byte.to_N b2 - 128) in
            if is_continuation b1 && is_continuation b2
               && (2048 <=? c) && negb (is_surrogate c)
            then option_map (Str c) (utf8_decode bs3)
            else None
        | _ => None
        end
      else if (240 <=? n0) && (n0 <? 245) then
        match bs1 with
        | b1 :: b2 :: b3 :: bs4 =>
            let c := (n0 - 240) * 262144 + (Byte.to_N b1 - 128) * 4096
                     + (Byte.to_N b2 - 128) * 64 + (Byte.to_N b3 - 128) in
            if is_continuation b1 && is_continuation b2 && is_continuation b3
               && (65536 <=? c) && (c <? 1114112)
            then option_map (Str c) (utf8_decode bs4)
            else None
        | _ => None
        end
      else None
  end%N.

(** ** Expressions *)

(** Modelled from the spec: the AST node of [expression.py] and its literal
    subclass of [constant.py], which are not among the sources.  A node has an
    [expr_type], its [children] and a declared [return_type]; a literal node
    carries the constant that [get_value()] returns. *)
Inductive Expression : Type := Build_Expression {
  expr_type : str;
  children : list Expression;
  return_type : Z;
  constant : option value
}.

(** [expression.get_value()]: only a literal node has the method. *)
Definition get_value (e : Expression) : res value :=
  match constant e with
  | Some v => Ok v
  | None => Raise (AttributeError "'Expression' object has no attribute 'get_value'")
  end.

(** [expression.children[i]]. *)
Definition child (e : Expression) (i : nat) : res Expression :=
  match nth_error (children e) i with
  | Some c => Ok c
  | None => Raise (IndexError "list index out of range")
  end.

(** Modelled from the spec: the identifiers of [expression_type.py]. *)
Definition ACCESSOR : str := "accessor".
Definition ELEMENT : str := "element".

(** Modelled from the spec: the bit flags of [return_type.py]. *)
Module ReturnType.
Definition Boolean : Z := 1.
Definition Number : Z := 2.
Definition Object : Z := 4.
Definition String : Z := 8.
Definition Array : Z := 16.
End ReturnType.

(** [sys.maxsize] on a 64-bit platform. *)
Definition maxsize : Z := 2 ^ 63 - 1.

(** [len(xs)] as a Python [int]. *)
Definition len {A : Type} (xs : list A) : Z := Z.of_nat (List.length xs).

(** ** Mappings and time *)

(** [d.keys()], in insertion order. *)
Definition keys (d : list (str * value)) : list str := map fst d.

(** [d.get(k)]: [None] for a missing key. *)
Definition dict_get (d : list (str * value)) (k : str) : value :=
  match lookup k d with
  | Some v => v
  | None => VNone
  end.

(** [d[k] = v]: the value of an existing key is replaced where it is, a new
    key is added at the end. *)
Fixpoint dict_set (d : list (str * value)) (k : str) (v : value)
    : list (str * value) :=
  match d with
  | [] => [(k, v)]
  | (k', v') :: d' =>
      if str_eqb k k' then (k', v) :: d' else (k', v') :: dict_set d' k v
  end.

(** What a converter of [date_time_converter] adds to a [datetime]: the
    [timedelta] or [relativedelta] of its unit, with the signed amount. *)
Inductive time_delta : Type :=
| Seconds (n : Z)
| Minutes (n : Z)
| Hours (n : Z)
| Days (n : Z)
| Weeks (n : Z)
| Months (n : Z)
| Years (n : Z).

(** [(timestamp - 621355968000000000) / 10000000]: the true division of two
    [int]s, the quotient rounded to the nearest binary64 number, ties to
    even; the last bit of the scaled quotient records a remainder. *)
Definition ticks_to_seconds (timestamp : Z) : res float :=
  let a := timestamp - 621355968000000000 in
  let q := Z.abs a * 2 ^ 80 / 10000000 in
  let r := Z.abs a * 2 ^ 80 mod 10000000 in
  let m := 2 * q + (if r =? 0 then 0 else 1) in
  match binary_normalize prec emax (if a <? 0 then - m else m) (-81) false with
  | S754_infinity _ =>
      Raise (OverflowError "integer division result too large for a float")
  | sf => Ok (SF2Prim sf)
  end.

(** The result of [urllib.parse.urlparse] as far as [UriPort] reads it: the
    [netloc] attribute and the [port] property, which raises for a port that
    is not a number in range. *)
Record ParseResult : Type := Build_ParseResult {
  netloc : str;
  port : res (option Z)
}.

(** [result] of [foreach] is only declared ([result: list]) until the loop
    is reached: on the paths that skip the loop, [value = result] reads a
    local variable that was never assigned. *)
Definition result_unbound : exn :=
  UnboundLocalError "local variable 'result' referenced before assignment".

(** ** Literal nodes

    What the engine is instantiated with for its examples: nodes that
    evaluate to their constant.  The memory is a stack of mappings, the
    options carry nothing, a node is shown by its type, and a node without a
    constant evaluates to an error. *)

Definition opaque_repr (v : value) : str := "<object>".

Definition node_name (e : Expression) : str := expr_type e.

Definition evaluate_literal
    (e : Expression) (state : list value) (options : unit)
    : res (value * option str) * list value :=
  match constant e with
  | Some v => (Ok (v, None), state)
  | None => (Ok (VNone, Some (expr_type e ++ " is not a literal")), state)
  end.

(** The same evaluation, a node of type [foreach] apart: its evaluation
    raises what [foreach] raises over a collection that is null. *)
Definition evaluate_nested
    (e : Expression) (state : list value) (options : unit)
    : res (value * option str) * list value :=
  if str_eqb (expr_type e) "foreach" then (Raise result_unbound, state)
  else evaluate_literal e state options.

(** [str.lower()] as far as the examples go: the letters [A-Z] and the
    accented capitals from 192 to 222, the sign 215 apart, move up by 32;
    every other code point is kept. *)
Fixpoint lower_latin (s : str) : str :=
  match s with
  | EmptyStr => EmptyStr
  | Str c s' =>
      Str (if ((65 <=? c) && (c <=? 90)
               || (192 <=? c) && (c <=? 222) && negb (c =? 215))%N
           then (c + 32)%N else c)
        (lower_latin s')
  end.

Definition literal (v : value) : Expression :=
  Build_Expression "Constant" [] ReturnType.Object (Some v).

Definition node (type : str) (cs : list Expression) : Expression :=
  Build_Expression type cs ReturnType.Object None.

(** A function for [apply_with_error] that returns a value with an error. *)
Definition value_and_error (args : list value) : res (value * option str) :=
  Ok (VInt 1, Some "failed").

(** A function for [apply_with_error] in the manner of [formatTicks]: the
    value of an integer argument, an error for anything else. *)
Definition integer_or_error (args : list value) : res (value * option str) :=
  match args with
  | VInt n :: _ => Ok (VInt n, None)
  | _ => Ok (VNone, Some "first argument is not a number")
  end.

(** Integer addition, for [apply_sequence]. *)
Definition add (a b : value) : value :=
  match a, b with
  | VInt n, VInt m => VInt (n + m)
  | _, _ => VNone
  end.

(** [json[2].b]: an accessor over an element over a node that is neither. *)
Definition json_2_b : Expression :=
  node ACCESSOR
    [literal (VStr "b"); node ELEMENT [node "json" []; literal (VInt 2)]].

(** [json[1.5]]: an element whose subscript is neither an integer nor a
    string. *)
Definition json_1_5 : Expression :=
  node ELEMENT [node "json" []; literal (VFloat 1.5%float)].

(** [foreach(items, x, body)] over the two elements [1] and [2]. *)
Definition foreach_node (body : Expression) : Expression :=
  node "foreach"
    [literal (VList [VInt 1; VInt 2]); node ACCESSOR [literal (VStr "x")]; body].

(** [foreach(null, y, 7)]: an iteration over a collection that is null. *)
Definition foreach_null : Expression :=
  node "foreach"
    [literal VNone; node ACCESSOR [literal (VStr "y")]; literal (VInt 7)].

(** [length(add())]: a child that returns a number where a string is
    declared. *)
Definition length_of_number : Expression :=
  Build_Expression "length"
    [Build_Expression "add" [] ReturnType.Number None]
    ReturnType.Number None.

(** The exact value of a finite number, as a rational. *)
Definition exact (v : value) : Q :=
  match v with
  | VBool b => inject_Z (int_of_bool b)
  | VInt n => inject_Z n
  | VFloat f =>
      match Prim2SF f with
      | S754_finite s m e =>
          let a := if s then Z.neg m else Z.pos m in
          if 0 <=? e then inject_Z (a * 2 ^ e)
          else Qmake a (Z.to_pos (2 ^ (- e)))
      | _ => 0%Q
      end
  | _ => 0%Q
  end.

(** A [datetime] as its seconds, for the examples of [formatTicks]. *)
Definition instant_of (seconds : float) : res float := Ok seconds.

(** A formatter that shows nothing of the instant. *)
Definition format_instant (date_time : float) (format : value) : res value :=
  Ok (VStr "instant").

(** A parser that knows one absolute URI and finds no network location in
    anything else. *)
Definition parse_one_uri (uri : str) : res ParseResult :=
  if str_eqb uri "http://localhost:8080/x"
  then Ok (Build_ParseResult "localhost:8080" (Ok (Some 8080)))
  else Ok (Build_ParseResult EmptyStr (Ok None)).

(** [{"Name": "Ada", "age": 36}]. *)
Definition person : list (str * value) :=
  [("Name", VStr "Ada"); ("age", VInt 36)].

(** [json[missing()]]: an element whose subscript is a node without a
    constant. *)
Definition json_missing : Expression :=
  node ELEMENT [node "json" []; node "missing" []].

(** A function for [apply_sequence_with_error] that refuses the argument
    [0]. *)
Definition divide (args : list value) : res (value * option str) :=
  match args with
  | [VInt a; VInt b] =>
      if b =? 0 then Ok (VNone, Some "division by zero")
      else Ok (VInt (a / b), None)
  | _ => Ok (VNone, Some "two integers expected")
  end.

(** The [str] of the one code point [0xD800], a surrogate without its
    pair. *)
Definition lone_surrogate : str := Str 55296 EmptyStr.

(** ** [FunctionUtils] *)

Section Engine.

(** [repr] of the values whose [str] is their [repr] (floats, byte strings,
    containers, objects): Python's own formatting, left open. *)
Variable py_repr : value -> str.

(** [s.lower()]: the case mapping of the Unicode database, left open. *)
Variable lower : str -> str.

(** The evaluation options ([options.py]), opaque here. *)
Variable Options : Type.

(** A reference to a memory object ([memory_interface.py]), opaque here. *)
Variable memory : Type.

(** Modelled from the spec: the stacked memory of [memory/stacked_memory.py],
    a push-down stack of memories.  The memory an evaluation sees is
    represented by the frames it is made of, bottom first: a stacked memory by
    its frames, any other memory [m] by the single frame [m].  [wrap] gives
    the stacked view, [append] pushes a frame and [pop] removes the top one.
    The object is mutable, so every evaluation returns the frames it leaves. *)
Definition stack : Type := list memory.

Definition StackedMemory_wrap (state : stack) : stack := state.

Definition StackedMemory_append (frames : stack) (frame : memory) : stack :=
  (frames ++ [frame])%list.

Definition StackedMemory_pop (frames : stack) : res stack :=
  match frames with
  | [] => Raise (IndexError "pop from empty list")
  | _ => Ok (removelast frames)
  end.

(** [SimpleObjectMemory.wrap(local)] of [memory/simple_object_memory.py]:
    a new memory over the mapping [local]. *)
Variable SimpleObjectMemory_wrap : value -> memory.

(** [expression.to_string()] of [expression.py]. *)
Variable to_string : Expression -> str.

(** The result of an evaluator: the [(value, error)] pair it returns or the
    exception it raises, and the frames of the memory afterwards. *)
Definition evaluation : Type := res (value * option str) * stack.

(** [expression.try_evaluate(state, options)] of [expression.py], which
    hands the call on to the evaluator of the node: the node's
    [(value, error)] pair or the exception its evaluator raises, and the
    frames of [state] when the call ends. *)
Variable try_evaluate : Expression -> stack -> Options -> evaluation.

(** [str(v)]. *)
Definition py_str (v : value) : str :=
  match v with
  | VNone => "None"
  | VBool true => "True"
  | VBool false => "False"
  | VInt n => str_int n
  | VStr s => s
  | _ => py_repr v
  end.

(** *** Validators *)

Definition build_type_validator_error
    (return_type : Z) (child_expr expr : Expression) : str :=
  let names :=
    if py_eq (VInt return_type) (VTuple [VInt 1]) then "Boolean"
    else if py_eq (VInt return_type) (VTuple [VInt 2]) then "Number"
    else if py_eq (VInt return_type) (VTuple [VInt 4]) then "Object"
    else if py_eq (VInt return_type) (VTuple [VInt 8]) then "String"
    else "Array" in
  if negb (has_comma names)
  then "{" ++ to_string child_expr ++ "} is not a {" ++ names
       ++ "} expression in {" ++ to_string expr ++ "}."
  else "{" ++ to_string child_expr ++ "} in {" ++ to_string expr
       ++ "} is not any of [{" ++ names ++ "}].".

(** The loop of [validate_arity_and_any_type] over the children; [declared]
    is its [return_type] argument. *)
Fixpoint validate_any_type
    (expression : Expression) (declared : Z) (cs : list Expression)
    : res unit :=
  match cs with
  | [] => Ok tt
  | c :: cs' =>
      if (Z.land (return_type c) ReturnType.Object =? 0)
         && (Z.land declared (return_type c) =? 0)
      then Raise (Exception (build_type_validator_error declared c expression))
      else validate_any_type expression declared cs'
  end.

Definition validate_arity_and_any_type
    (expression : Expression) (min_arity max_arity : Z) (declared : Z)
    : res unit :=
  if len (children expression) <? min_arity
  then Raise (Exception (to_string expression ++ " should have at least "
                         ++ str_int min_arity ++ " children."))
  else if len (children expression) >? max_arity
  then Raise (Exception (to_string expression ++ " can't have more than "
                         ++ str_int max_arity ++ " children."))
  else if Z.land declared ReturnType.Object =? 0
  then validate_any_type expression declared (children expression)
  else Ok tt.

Definition validate_binary (expression : Expression) : res unit :=
  validate_arity_and_any_type expression 2 2 ReturnType.Object.

Definition validate_two_or_more_than_two_numbers (expression : Expression) : res unit :=
  validate_arity_and_any_type expression 2 maxsize ReturnType.Number.

Definition validate_binary_number_or_string (expression : Expression) : res unit :=
  validate_arity_and_any_type expression 2 2
    (Z.lor ReturnType.Number ReturnType.String).

Definition validate_at_least_one (expression : Expression) : res unit :=
  validate_arity_and_any_type expression 1 maxsize ReturnType.Object.

Definition validate_unary (expression : Expression) : res unit :=
  validate_arity_and_any_type expression 1 1 ReturnType.Object.

Definition validate_binary_number (expression : Expression) : res unit :=
  validate_arity_and_any_type expression 2 2 ReturnType.Number.

Definition validate_unary_number (expression : Expression) : res unit :=
  validate_arity_and_any_type expression 1 1 ReturnType.Number.

Definition validate_unary_or_binary_number (expression : Expression) : res unit :=
  validate_arity_and_any_type expression 1 2 ReturnType.Number.

Definition validate_unary_or_binary_string (expression : Expression) : res unit :=
  validate_arity_and_any_type expression 1 2 ReturnType.String.

Definition validate_unary_string (expression : Expression) : res unit :=
  validate_arity_and_any_type expression 1 1 ReturnType.String.

(** One turn of the two loops of [validate_order]: the check of a child
    against the type its position asks for. *)
Definition validate_child
    (expression : Expression) (child_type : Z) (c : Expression) : res unit :=
  if (Z.land child_type ReturnType.Object =? 0)
     && (Z.land (return_type c) ReturnType.Object =? 0)
     && (Z.land child_type (return_type c) =? 0)
  then Raise (Exception (build_type_validator_error child_type c expression))
  else Ok tt.

(** [for i, child_type in enumerate(types)], from index [i] on. *)
Fixpoint validate_required
    (expression : Expression) (types : list Z) (i : nat) : res unit :=
  match types with
  | [] => Ok tt
  | child_type :: types' =>
      c <- child expression i ;;
      _ <- validate_child expression child_type c ;;
      validate_required expression types' (S i)
  end.

(** [for i, child_type in enumerate(optional)], at the child [i_c]. *)
Fixpoint validate_optional
    (expression : Expression) (optional : list Z) (i_c : nat) : res unit :=
  match optional with
  | [] => Ok tt
  | child_type :: optional' =>
      match nth_error (children expression) i_c with
      | None => Ok tt
      | Some c =>
          _ <- validate_child expression child_type c ;;
          validate_optional expression optional' (S i_c)
      end
  end.

Definition validate_order
    (expression : Expression) (optional : option (list Z)) (types : list Z)
    : res unit :=
  let optional := match optional with None => [] | Some o => o end in
  if (len (children expression) <? len types)
     || (len (children expression) >? len types + len optional)
  then
    if len optional =? 0
    then Raise (Exception ("{" ++ to_string expression ++ "} should have {"
                           ++ str_int (len types) ++ "} children."))
    else Raise (Exception ("{" ++ to_string expression
                           ++ "} should have between {" ++ str_int (len types)
                           ++ "} and {" ++ str_int (len types + len optional)
                           ++ "} children."))
  else
    _ <- validate_required expression types 0 ;;
    validate_optional expression optional (List.length types).

Definition validate_foreach (expression : Expression) : res unit :=
  if negb (len (children expression) =? 3)
  then Raise (Exception ("foreach expect 3 parameters, found "
                         ++ str_int (len (children expression))))
  else
    second <- child expression 1 ;;
    if negb (str_eqb (expr_type second) ACCESSOR
             && (len (children second) =? 1))
    then Raise (Exception ("Second parameter of foreach is not an identifier: "
                           ++ to_string second))
    else Ok tt.

(** *** Verifiers *)

(** [VerifyExpression]: the error of an argument, or [None]. *)
Definition VerifyExpression : Type :=
  value -> Expression -> Z -> res (option str).

Definition is_integer (obj : value) : bool :=
  negb (is_none obj)
  && (isinstance_int obj
      || (isinstance_float obj
          && match obj with VFloat f => float_is_integer f | _ => false end)).

Definition verify_string : VerifyExpression := fun value expression number =>
  if negb (isinstance_str value)
  then Ok (Some (to_string expression ++ " is not a string."))
  else Ok None.

Definition verify_string_or_null : VerifyExpression := fun value expression number =>
  if negb (isinstance_str value) && negb (is_none value)
  then Ok (Some (to_string expression ++ " is neither a string nor a null object."))
  else Ok None.

Definition verify_number_or_string_or_null : VerifyExpression :=
  fun value expression number =>
  if negb (is_none value)
     && (isinstance_bool value || negb (isinstance_Number value))
     && negb (isinstance_str value)
  then Ok (Some (to_string expression ++ " is neither a number nor string."))
  else Ok None.

Definition verify_number_or_string : VerifyExpression := fun value expression number =>
  if is_none value
     || (negb (isinstance_Number value) && negb (isinstance_str value))
  then Ok (Some (to_string expression ++ " is not string or number"))
  else Ok None.

Definition verify_number : VerifyExpression := fun value expression pos =>
  if negb (isinstance_Number value)
  then Ok (Some (to_string expression ++ " is not a number."))
  else Ok None.

(** [error = elt + " is not a number in " + expression]: the right operand of
    the second [+] is the node itself, which a [str] cannot be concatenated
    with, so the statement raises whatever [elt] is. *)
Definition not_a_number_in (elt : value) (expression : Expression)
    : res (option str) :=
  _ <- add_str elt " is not a number in " ;;
  Raise (TypeError "can only concatenate str to str").

(** [for elt in value] of the two numeric-list verifiers. *)
Fixpoint verify_elements (elts : list value) (expression : Expression)
    : res (option str) :=
  match elts with
  | [] => Ok None
  | elt :: elts' =>
      if negb (isinstance_Number elt)
      then not_a_number_in elt expression
      else verify_elements elts' expression
  end.

Definition verify_numeric_list_or_number : VerifyExpression :=
  fun value expression number =>
  if isinstance_Number value then Ok None
  else
    match value with
    | VList elts => verify_elements elts expression
    | _ => Ok (Some (to_string expression ++ " is neither a list nor a number."))
    end.

Definition verify_integer : VerifyExpression := fun value expression number =>
  if negb (is_integer value)
  then Ok (Some (to_string expression ++ " is not an integer."))
  else Ok None.

Definition verify_list : VerifyExpression := fun value expression number =>
  if negb (isinstance_list value)
  then Ok (Some (to_string expression ++ " is not a list."))
  else Ok None.

Definition verify_numeric_list : VerifyExpression := fun value expression number =>
  match value with
  | VList elts => verify_elements elts expression
  | _ => Ok (Some (to_string expression ++ " is not a list."))
  end.

Definition verify_not_null : VerifyExpression := fun value expression number =>
  if is_none value
  then Ok (Some (to_string expression ++ " is null."))
  else Ok None.

(** *** Child evaluation and the apply combinators *)

(** The loop of [evaluate_children]; [error] is the variable as the last
    turn left it.  An exception of a child or of the verifier ends the
    loop: nothing here catches it. *)
Fixpoint evaluate_loop
    (cs : list Expression) (state : stack) (options : Options)
    (verify : option VerifyExpression)
    (args : list value) (error : option str) (pos : Z)
    : res (list value * option str) * stack :=
  match cs with
  | [] => (Ok (args, error), state)
  | c :: cs' =>
      match try_evaluate c state options with
      | (Raise e, state) => (Raise e, state)
      | (Ok (value, error), state) =>
          if truthy error then (Ok (args, error), state)
          else
            match (match verify with
                   | Some v => v value c pos
                   | None => Ok error
                   end) with
            | Raise e => (Raise e, state)
            | Ok error =>
                if truthy error then (Ok (args, error), state)
                else evaluate_loop cs' state options verify
                       (args ++ [value])%list error (pos + 1)
            end
      end
  end.

Definition evaluate_children
    (expression : Expression) (state : stack) (options : Options)
    (verify : option VerifyExpression)
    : res (list value * option str) * stack :=
  evaluate_loop (children expression) state options verify [] None 0.

Definition apply
    (function : list value -> res value) (verify : option VerifyExpression)
    (expression : Expression) (state : stack) (options : Options)
    : evaluation :=
  match evaluate_children expression state options verify with
  | (Raise e, state) => (Raise e, state)
  | (Ok (args, error), state) =>
      match error with
      | None =>
          match function args with
          | Ok value => (Ok (value, None), state)
          | Raise err => (Ok (VNone, Some (str_exn err)), state)
          end
      | Some _ => (Ok (VNone, error), state)
      end
  end.

Definition apply_with_error
    (function : list value -> res (value * option str))
    (verify : option VerifyExpression)
    (expression : Expression) (state : stack) (options : Options)
    : evaluation :=
  match evaluate_children expression state options verify with
  | (Raise e, state) => (Raise e, state)
  | (Ok (args, error), state) =>
      match error with
      | None =>
          match function args with
          | Ok (value, error) => (Ok (value, error), state)
          | Raise err => (Ok (VNone, Some (str_exn err)), state)
          end
      | Some _ => (Ok (VNone, error), state)
      end
  end.

(** [for arg in args[1:]] of [apply_sequence_with_error]. *)
Fixpoint sequence_with_error
    (function : list value -> res (value * option str))
    (rest : list value) (so_far : value) : res (value * option str) :=
  match rest with
  | [] => Ok (so_far, None)
  | arg :: rest' =>
      r <- function [so_far; arg] ;;
      let '(value, error) := r in
      if truthy error then Ok (value, error)
      else sequence_with_error function rest' value
  end.

Definition apply_sequence_with_error
    (function : list value -> res (value * option str))
    (verify : option VerifyExpression)
    : Expression -> stack -> Options -> evaluation :=
  let anonymous_function (args : list value) :=
    match args with
    | [] => Raise (IndexError "list index out of range")
    | so_far :: rest => sequence_with_error function rest so_far
    end in
  apply_with_error anonymous_function verify.

(** [for arg in args[1:]] of [apply_sequence]. *)
Fixpoint sequence
    (function : list value -> res value)
    (rest : list value) (so_far : value) : res value :=
  match rest with
  | [] => Ok so_far
  | arg :: rest' =>
      so_far <- function [so_far; arg] ;;
      sequence function rest' so_far
  end.

(** The function [apply_sequence] hands to [apply]. *)
Definition apply_sequence_function
    (function : list value -> res value) (args : list value) : res value :=
  match args with
  | [] => Raise (IndexError "list index out of range")
  | so_far :: rest => sequence function rest so_far
  end.

Definition apply_sequence
    (function : list value -> res value) (verify : option VerifyExpression)
    : Expression -> stack -> Options -> evaluation :=
  apply (apply_sequence_function function) verify.

(** *** Memory access *)

Definition access_index (instance : value) (index : Z)
    : res (value * option str) :=
  if is_none instance then Ok (VNone, None)
  else
    match instance with
    | VList items =>
        if (0 <=? index) && (index <? len items)
        then Ok (nth (Z.to_nat index) items VNone, None)
        else Ok (VNone, Some (str_int index ++ " is out of range for "
                              ++ py_str instance))
    | _ =>
        error <- add_str instance " is not a collection." ;;
        Ok (VNone, Some error)
    end.

Definition is_logic_true (instance : value) : bool :=
  match instance with
  | VBool b => b
  | VNone => false
  | _ => true
  end.

(** The last three statements of [try_accumulate_path]. *)
Definition accumulated (path : str) (left : option Expression)
    : option str * option Expression * option str :=
  let path := replace_dot_bracket (rstrip_dot path) in
  (if str_eqb path EmptyStr then None else Some path, left, None).

(** The [while] loop of [try_accumulate_path], from the node [left] and the
    [path] collected so far, and what the function returns after it. *)
Fixpoint accumulate
    (left : Expression) (path : str) (state : stack) (options : Options)
    {struct left}
    : res (option str * option Expression * option str) * stack :=
  let 'Build_Expression type cs _ _ := left in
  if str_eqb type ACCESSOR then
    match cs with
    | [] => (Raise (IndexError "list index out of range"), state)
    | name :: cs' =>
        match get_value name with
        | Raise e => (Raise e, state)
        | Ok v =>
            let path := py_str v ++ "." ++ path in
            match cs' with
            | [parent] => accumulate parent path state options
            | _ => (Ok (accumulated path None), state)
            end
        end
    end
  else if str_eqb type ELEMENT then
    match cs with
    | container :: index :: _ =>
        match try_evaluate index state options with
        | (Raise e, state) => (Raise e, state)
        | (Ok (value, error), state) =>
            match error with
            | Some _ => (Ok (None, None, error), state)
            | None =>
                if isinstance_Number value && is_integer value then
                  match py_int value with
                  | Raise e => (Raise e, state)
                  | Ok n =>
                      accumulate container ("[" ++ str_int n ++ "]." ++ path)
                        state options
                  end
                else
                  match value with
                  | VStr s =>
                      accumulate container ("['" ++ s ++ "']." ++ path)
                        state options
                  | _ =>
                      (Raise (AttributeError
                                "'NoneType' object has no attribute 'children'"),
                       state)
                  end
            end
        end
    | _ => (Raise (IndexError "list index out of range"), state)
    end
  else (Ok (accumulated path (Some left)), state).

Definition try_accumulate_path
    (expression : Expression) (state : stack) (options : Options)
    : res (option str * option Expression * option str) * stack :=
  accumulate expression EmptyStr state options.

(** *** Higher-order forms *)

(** The elements [foreach] iterates over: those of a list or of a set, the
    [{"key": k, "value": v}] pairs of a mapping; nothing else is iterated. *)
Definition elements_of (instance : value) : option (list value) :=
  match instance with
  | VList items | VSet items => Some items
  | VDict entries =>
      Some (map (fun '(k, v) => VDict [("key", VStr k); ("value", v)]) entries)
  | _ => None
  end.

(** The frame [foreach] pushes for an element. *)
Definition iterator_frame (iterator_name : str) (item : value) : memory :=
  SimpleObjectMemory_wrap (VDict [(iterator_name, item)]).

(** [for item in arr] of [foreach], with the frames of [stacked_memory] and
    the [result] list as the turns before left them.  Nothing stands between
    [append] and [pop] but the evaluation of the body: when it raises, the
    frame of the element is not popped. *)
Fixpoint foreach_loop
    (expression : Expression) (options : Options) (iterator_name : str)
    (arr : list value) (stacked_memory : stack) (result : list value)
    : evaluation :=
  match arr with
  | [] => (Ok (VList result, None), stacked_memory)
  | item :: arr' =>
      let stacked_memory :=
        StackedMemory_append stacked_memory (iterator_frame iterator_name item) in
      match child expression 2 with
      | Raise e => (Raise e, stacked_memory)
      | Ok body =>
          match try_evaluate body stacked_memory options with
          | (Raise e, stacked_memory) => (Raise e, stacked_memory)
          | (Ok r, stacked_memory) =>
              match StackedMemory_pop stacked_memory with
              | Raise e => (Raise e, stacked_memory)
              | Ok stacked_memory =>
                  match snd r with
                  | Some error => (Ok (VNone, Some error), stacked_memory)
                  | None =>
                      foreach_loop expression options iterator_name arr'
                        stacked_memory (result ++ [fst r])%list
                  end
              end
          end
      end
  end.

(** [str(expression.children[1].children[0].get_value())]. *)
Definition iterator_name_of (expression : Expression) : res str :=
  second <- child expression 1 ;;
  name <- child second 0 ;;
  v <- get_value name ;;
  Ok (py_str v).

Definition foreach
    (expression : Expression) (state : stack) (options : Options)
    : evaluation :=
  match child expression 0 with
  | Raise e => (Raise e, state)
  | Ok collection =>
      match try_evaluate collection state options with
      | (Raise e, state) => (Raise e, state)
      | (Ok (instance, error), state) =>
          let error :=
            if is_none instance
            then Some (to_string collection ++ " evaluated to null.")
            else error in
          match error with
          | Some _ => (Raise result_unbound, state)
          | None =>
              match iterator_name_of expression with
              | Raise e => (Raise e, state)
              | Ok iterator_name =>
                  match elements_of instance with
                  | None => (Raise result_unbound, state)
                  | Some arr =>
                      foreach_loop expression options iterator_name arr
                        (StackedMemory_wrap state) []
                  end
              end
          end
      end
  end.

(** Modelled from the spec: the evaluator of [where], whose source
    ([builtin_functions/where.py]) is not among the sources.  It iterates as
    [foreach] does (the iterable from child 0, the iterator name from child 1,
    child 2 once per element in a pushed frame that is popped, the first
    error ending the iteration) and returns the elements for which the body
    is truthy. *)
Fixpoint where_loop
    (expression : Expression) (options : Options) (iterator_name : str)
    (arr : list value) (stacked_memory : stack) (result : list value)
    : evaluation :=
  match arr with
  | [] => (Ok (VList result, None), stacked_memory)
  | item :: arr' =>
      let stacked_memory :=
        StackedMemory_append stacked_memory (iterator_frame iterator_name item) in
      match child expression 2 with
      | Raise e => (Raise e, stacked_memory)
      | Ok body =>
          match try_evaluate body stacked_memory options with
          | (Raise e, stacked_memory) => (Raise e, stacked_memory)
          | (Ok r, stacked_memory) =>
              match StackedMemory_pop stacked_memory with
              | Raise e => (Raise e, stacked_memory)
              | Ok stacked_memory =>
                  match snd r with
                  | Some error => (Ok (VNone, Some error), stacked_memory)
                  | None =>
                      where_loop expression options iterator_name arr'
                        stacked_memory
                        (if is_logic_true (fst r) then result ++ [item]
                         else result)%list
                  end
              end
          end
      end
  end.

Definition where_evaluator
    (expression : Expression) (state : stack) (options : Options)
    : evaluation :=
  match child expression 0 with
  | Raise e => (Raise e, state)
  | Ok collection =>
      match try_evaluate collection state options with
      | (Raise e, state) => (Raise e, state)
      | (Ok (instance, error), state) =>
          match error with
          | Some _ => (Ok (VNone, error), state)
          | None =>
              match iterator_name_of expression with
              | Raise e => (Raise e, state)
              | Ok iterator_name =>
                  match elements_of instance with
                  | None =>
                      (Ok (VNone,
                           Some (to_string collection
                                 ++ " is not a collection or structure object to run where")),
                       state)
                  | Some arr =>
                      where_loop expression options iterator_name arr
                        (StackedMemory_wrap state) []
                  end
              end
          end
      end
  end.

(** *** Equality *)

(** The literal [0.00000001]. *)
Definition tolerance : float := 0.00000001%float.

(** [abs(float(a) - float(b)) < 0.00000001]. *)
Definition close (a b : value) : res bool :=
  x <- py_float a ;;
  y <- py_float b ;;
  Ok (PrimFloat.ltb (PrimFloat.abs (PrimFloat.sub x y)) tolerance).

Definition is_empty_list (v : value) : bool :=
  match v with VList [] => true | _ => false end.

Definition is_empty_dict (v : value) : bool :=
  match v with VDict [] => true | _ => false end.

Definition is_equal (args : list value) : res bool :=
  match args with
  | [] => Ok false
  | [_] => Raise (IndexError "list index out of range")
  | a :: b :: _ =>
      if is_none a || is_none b then Ok (is_none a && is_none b)
      else if is_empty_list a && is_empty_list b then Ok true
      else if is_empty_dict a && is_empty_dict b then Ok true
      else if isinstance_Number a && isinstance_Number b then
        c <- close a b ;;
        if c then Ok true else Ok (py_eq a b)
      else Ok (py_eq a b)
  end.

(** *** Properties of objects *)

Definition access_property (instance : value) (property : str)
    : value * option str :=
  if is_none instance then (VNone, None)
  else
    match instance with
    | VDict entries =>
        let value := dict_get entries property in
        if is_none value then
          let prop :=
            filter (fun x => str_eqb (lower x) (lower property))
              (keys entries) in
          match prop with
          | k :: _ => (dict_get entries k, None)
          | [] => (value, None)
          end
        else (value, None)
    | _ => (VNone, None)
    end.

(** [instance[property] = val] assigns in a mapping; no other value of the
    value space takes a [str] subscript, an object being taken of a class
    without item assignment.  The instance is returned as the assignment
    leaves it, beside the [(value, error)] pair. *)
Definition set_property (instance : value) (property : str) (val : value)
    : res ((value * option str) * value) :=
  match instance with
  | VDict entries => Ok ((val, None), VDict (dict_set entries property val))
  | _ => Raise (TypeError "object does not support item assignment")
  end.

Definition parse_int (obj : value) : res (Z * option str) :=
  if is_integer obj then
    result <- py_int obj ;;
    Ok (result, None)
  else Ok (0, Some (py_str obj ++ " must be a integer.")).

(** *** Time units *)

(** [date_time_converter]: the converter, the error, and the lines printed;
    a converter is given by what it adds to its argument. *)
Definition date_time_converter (interval : Z) (time_unit : str) (is_past : bool)
    : (option time_delta * option str) * list str :=
  let multi_flag := if is_past then -1 else 1 in
  if str_eqb (lower time_unit) "second"
  then ((Some (Seconds (multi_flag * interval)), None), [])
  else if str_eqb (lower time_unit) "minute"
  then ((Some (Minutes (multi_flag * interval)), None), [])
  else if str_eqb (lower time_unit) "hour"
  then ((Some (Hours (multi_flag * interval)), None), [])
  else if str_eqb (lower time_unit) "day"
  then ((Some (Days (multi_flag * interval)), None), [])
  else if str_eqb (lower time_unit) "week"
  then ((Some (Weeks (multi_flag * interval)), None), [])
  else if str_eqb (lower time_unit) "month"
  then ((Some (Months (multi_flag * interval)), None), [])
  else if str_eqb (lower time_unit) "year"
  then ((Some (Years (multi_flag * interval)), None), [])
  else
    let error := "{" ++ time_unit ++ "} is not a valid time unit." in
    ((None, Some error), [error]).

(** ** [DataUri] *)

(** The function [DataUri.evaluator] hands to [apply]. *)
Definition data_uri_function (args : list value) : res value :=
  match args with
  | [] => Raise (IndexError "list index out of range")
  | arg :: _ =>
      bytes_string <- utf8_encode (py_str arg) ;;
      Ok (VStr ("data:text/plain;charset=utf-8;base64,"
                ++ b64encode bytes_string))
  end.

Definition DataUri_evaluator : Expression -> stack -> Options -> evaluation :=
  apply data_uri_function (Some verify_string).

(** ** [FormatTicks] *)

(** A [datetime] instant, opaque here. *)
Variable datetime : Type.

(** [datetime.fromtimestamp(seconds).astimezone(tz.gettz("UTC"))]: the
    library's conversion, which raises out of its range. *)
Variable fromtimestamp_utc : float -> res datetime.

(** [FormatDatetime.format(date_time, format)] of [convert_format.py]. *)
Variable FormatDatetime_format : datetime -> value -> res value.

Definition default_date_time_format : str := "yyyy-MM-ddTHH:mm:ss.fffZ".

(** The function [FormatTicks.evaluator] hands to [apply_with_error]. *)
Definition format_ticks_function (args : list value)
    : res (value * option str) :=
  match args with
  | [] => Raise (IndexError "list index out of range")
  | timestamp :: _ =>
      if isinstance_int timestamp then
        ticks <- py_int timestamp ;;
        seconds <- ticks_to_seconds ticks ;;
        date_time <- fromtimestamp_utc seconds ;;
        if len args =? 2 then
          result <- FormatDatetime_format date_time (nth 1 args VNone) ;;
          Ok (result, None)
        else
          result <- FormatDatetime_format date_time
                      (VStr default_date_time_format) ;;
          Ok (result, None)
      else
        Ok (VNone, Some ("formatTicks first argument {" ++ py_str timestamp
                         ++ "} is not a number"))
  end.

Definition FormatTicks_evaluator : Expression -> stack -> Options -> evaluation :=
  apply_with_error format_ticks_function None.

Definition FormatTicks_validator (expression : Expression) : res unit :=
  validate_order expression (Some [ReturnType.String]) [ReturnType.Number].

(** ** [UriPort] *)

(** [urllib.parse.urlparse(uri)], the library's parser. *)
Variable urlparse : str -> res ParseResult.

Definition UriPort_evaluator
    (expression : Expression) (state : stack) (options : Options)
    : evaluation :=
  match evaluate_children expression state options None with
  | (Raise e, state) => (Raise e, state)
  | (Ok (args, error), state) =>
      match error with
      | None =>
          match args with
          | [] => (Raise (IndexError "list index out of range"), state)
          | VStr uri :: _ =>
              match urlparse uri with
              | Raise e => (Raise e, state)
              | Ok parsed =>
                  match port parsed with
                  | Raise e => (Raise e, state)
                  | Ok p =>
                      let value :=
                        match p with Some n => VInt n | None => VNone end in
                      if str_eqb (netloc parsed) EmptyStr
                      then (Ok (value,
                                Some "invalid operation, input uri should be an absolute URI"),
                            state)
                      else (Ok (value, None), state)
                  end
              end
          | arg :: _ =>
              (Ok (VNone, Some (py_str arg ++ " should be a string.")), state)
          end
      | Some _ => (Ok (VNone, error), state)
      end
  end.

(** ** The vocabulary of the properties *)

(** An evaluation is exclusive when the pair it returns does not hold both a
    value and an error. *)
Definition exclusive (r : evaluation) : Prop :=
  match fst r with
  | Ok (value, error) => error <> None -> value = VNone
  | Raise _ => True
  end.

(** A function handed to [apply_with_error] is exclusive when none of the
    pairs it returns holds both a value and an error. *)
Definition exclusive_function
    (function : list value -> res (value * option str)) : Prop :=
  forall args value error,
    function args = Ok (value, Some error) -> value = VNone.

(** A verifier that returns for every argument. *)
Definition total_verify (verify : option VerifyExpression) : Prop :=
  match verify with
  | None => True
  | Some v => forall value expression pos, exists error,
        v value expression pos = Ok error
  end.

(** A two-argument operation as the function over [binary_args] that
    [apply_sequence] expects. *)
Definition binary (g : value -> value -> value) (args : list value)
    : res value :=
  match args with
  | [a; b] => Ok (g a b)
  | _ => Raise (TypeError "two arguments expected")
  end.

(** The message that names [Array] as the expected type. *)
Definition not_an_Array (child_expr expr : Expression) : str :=
  "{" ++ to_string child_expr ++ "} is not a {Array} expression in {"
  ++ to_string expr ++ "}.".

(** [walks options left path state left' path' state']: from the node
    [left], with [path] collected and the memory [state], the walk of
    [try_accumulate_path] reaches the node [left'] with [path'] collected and
    the memory [state'], over accessors with a parent and over elements
    whose subscript evaluates without error to an integer or to a string. *)
Inductive walks (options : Options)
    : Expression -> str -> stack -> Expression -> str -> stack -> Prop :=
| walks_here left path state :
    walks options left path state left path state
| walks_accessor left name parent v path state left' path' state' :
    expr_type left = ACCESSOR ->
    children left = [name; parent] ->
    get_value name = Ok v ->
    walks options parent (py_str v ++ "." ++ path) state left' path' state' ->
    walks options left path state left' path' state'
| walks_index left container index rest value n path state state1
    left' path' state' :
    expr_type left = ELEMENT ->
    children left = container :: index :: rest ->
    try_evaluate index state options = (Ok (value, None), state1) ->
    isinstance_Number value && is_integer value = true ->
    py_int value = Ok n ->
    walks options container ("[" ++ str_int n ++ "]." ++ path) state1
      left' path' state' ->
    walks options left path state left' path' state'
| walks_key left container index rest s path state state1
    left' path' state' :
    expr_type left = ELEMENT ->
    children left = container :: index :: rest ->
    try_evaluate index state options = (Ok (VStr s, None), state1) ->
    walks options container ("['" ++ s ++ "']." ++ path) state1
      left' path' state' ->
    walks options left path state left' path' state'.

(** An element node whose subscript evaluates without error, in the memory
    [state], to a value that is neither an integer nor a string. *)
Definition unusable_subscript
    (left : Expression) (state : stack) (options : Options) : Prop :=
  expr_type left = ELEMENT
  /\ exists container index rest value state',
      children left = container :: index :: rest
      /\ try_evaluate index state options = (Ok (value, None), state')
      /\ isinstance_Number value && is_integer value = false
      /\ isinstance_str value = false.

(** What the body of a higher-order form gives for an element: its pair, or
    the exception it raises, in the memory [state] with the frame of the
    element on top. *)
Definition body_result
    (body : Expression) (options : Options) (iterator_name : str)
    (state : stack) (item : value) : res (value * option str) :=
  fst (try_evaluate body
         (StackedMemory_append state (iterator_frame iterator_name item))
         options).

(** The result of an iteration from what its elements give, in order: the
    first exception or the first error, or the list of the values after
    [result]. *)
Fixpoint collect (rs : list (res (value * option str))) (result : list value)
    : res (value * option str) :=
  match rs with
  | [] => Ok (VList result, None)
  | Raise e :: _ => Raise e
  | Ok r :: rs' =>
      match snd r with
      | Some error => Ok (VNone, Some error)
      | None => collect rs' (result ++ [fst r])%list
      end
  end.

(** The evaluations of the node [e] leave the frames of the memory as they
    found them, whether they return or raise. *)
Definition balanced (options : Options) (e : Expression) : Prop :=
  forall state, snd (try_evaluate e state options) = state.

(** The evaluations of the node [e] return a pair: none of them raises. *)
Definition returns (options : Options) (e : Expression) : Prop :=
  forall state, exists r, fst (try_evaluate e state options) = Ok r.

(** The element gives a value and no error. *)
Definition succeeds (r : res (value * option str)) : Prop :=
  exists v, r = Ok (v, None).

(** A child fits a declared type when the declared type has the [Object]
    flag, or the child's return type has it, or the two share a flag. *)
Definition accepts (declared : Z) (c : Expression) : bool :=
  negb (Z.land declared ReturnType.Object =? 0)
  || negb (Z.land (return_type c) ReturnType.Object =? 0)
  || negb (Z.land declared (return_type c) =? 0).

(** A function that returns values as the function with errors that
    [apply_sequence_with_error] expects: the value, and no error. *)
Definition without_error (function : list value -> res value)
    (args : list value) : res (value * option str) :=
  value <- function args ;;
  Ok (value, None).

(** A [str] that holds a surrogate. *)
Fixpoint has_surrogate (s : str) : bool :=
  match s with
  | EmptyStr => false
  | Str c s' => is_surrogate c || has_surrogate s'
  end.

(** A [str] of code points: each of them is below [0x110000]. *)
Fixpoint code_points (s : str) : bool :=
  match s with
  | EmptyStr => true
  | Str c s' => (c <? 1114112)%N && code_points s'
  end.

(** The units [date_time_converter] knows, in lower case. *)
Definition time_units : list str :=
  ["second"; "minute"; "hour"; "day"; "week"; "month"; "year"].

(** [c in s]. *)
Fixpoint mem_char (c : N) (s : str) : bool :=
  match s with
  | EmptyStr => false
  | Str d s' => (d =? c)%N || mem_char c s'
  end.

(** A plain name: not empty, without a dot and without an opening
    bracket. *)
Definition plain (name : str) : bool :=
  negb (str_eqb name EmptyStr)
  && negb (mem_char (chr ".") name) && negb (mem_char (chr "[") name).

(** The accessor nodes of [first.n1.n2...]: the innermost reads [first] from
    the memory, each of the others reads its name from the one before. *)
Definition accessor_chain (first : str) (rest : list str) : Expression :=
  fold_left
    (fun parent name => node ACCESSOR [literal (VStr name); parent])
    rest (node ACCESSOR [literal (VStr first)]).

(** The names joined by dots. *)
Definition dotted (first : str) (rest : list str) : str :=
  fold_left (fun path name => path ++ "." ++ name) rest first.

(** ** Properties *)

(** *** Strings *)

Lemma str_eqb_spec (a b : str) : reflect (a = b) (str_eqb a b).
Proof.
  revert b. induction a as [| c a IH]; intros [| d b]; simpl;
    try (constructor; congruence).
  destruct (N.eqb_spec c d) as [-> | Hne]; simpl.
  - destruct (IH b) as [-> | Hne]; constructor; congruence.
  - constructor. congruence.
Qed.

Lemma str_eqb_eq (a b : str) : str_eqb a b = true <-> a = b.
Proof.
  destruct (str_eqb_spec a b) as [E | E]; split; congruence.
Qed.

Lemma str_eqb_refl (a : str) : str_eqb a a = true.
Proof. apply str_eqb_eq. reflexivity. Qed.

Lemma str_dec (a b : str) : {a = b} + {a <> b}.
Proof.
  destruct (str_eqb_spec a b); [left | right]; assumption.
Defined.

(** *** Truthiness *)

(** C4: [is_logic_true] is false exactly on the boolean [False] and on
    [None]; every other value is true, and so are [0], the empty string, the
    empty list and the empty mapping. *)
Theorem is_logic_true_spec :
  (forall v, is_logic_true v = false <-> v = VBool false \/ v = VNone)
  /\ (forall v, v <> VBool false -> v <> VNone -> is_logic_true v = true)
  /\ is_logic_true (VInt 0) = true
  /\ is_logic_true (VFloat 0%float) = true
  /\ is_logic_true (VStr EmptyStr) = true
  /\ is_logic_true (VList []) = true
  /\ is_logic_true (VDict []) = true.
Proof.
  split; [| split; [| repeat split ]].
  - intros v; split.
    + destruct v as [| [] | | | | | | | | |]; simpl; intros H;
        try discriminate H; auto.
    + intros [-> | ->]; reflexivity.
  - intros v Hb Hn.
    destruct v as [| [] | | | | | | | | |]; simpl; try reflexivity;
      contradiction.
Qed.

(** *** Number verification *)

Lemma verify_elements_bools (bs : list bool) (expression : Expression) :
  verify_elements (map VBool bs) expression = Ok None.
Proof.
  induction bs as [| b bs IH]; simpl; [reflexivity | exact IH].
Qed.

(** C5, as the code has it: a boolean passes the number verifiers.
    [verify_number] returns no error for [True] and [False], and so does
    [verify_numeric_list] for a list of booleans, because [bool] is a
    [numbers.Number]; only [verify_number_or_string_or_null] sets booleans
    apart. *)
Theorem verify_number_accepts_bool (b : bool) (bs : list bool)
    (expression : Expression) (pos : Z) :
  verify_number (VBool b) expression pos = Ok None
  /\ verify_numeric_list (VList (map VBool bs)) expression pos = Ok None
  /\ verify_number_or_string_or_null (VBool b) expression pos
     = Ok (Some (to_string expression ++ " is neither a number nor string.")).
Proof.
  repeat split; simpl; auto using verify_elements_bools.
Qed.

(** *** Index access *)

(** The cases of [access_index] that return a pair: [None], a list with the
    index in or out of range, and a string. *)
Lemma access_index_returns (items : list value) (s : str) (index : Z) :
  access_index VNone index = Ok (VNone, None)
  /\ (0 <= index < len items ->
      access_index (VList items) index
      = Ok (nth (Z.to_nat index) items VNone, None))
  /\ (~ 0 <= index < len items ->
      access_index (VList items) index
      = Ok (VNone, Some (str_int index ++ " is out of range for "
                         ++ py_str (VList items))))
  /\ access_index (VStr s) index = Ok (VNone, Some (s ++ " is not a collection.")).
Proof.
  unfold access_index; simpl; repeat split; intros H.
  - replace ((0 <=? index) && (index <? len items)) with true; [reflexivity |].
    symmetry; apply andb_true_iff; split; [apply Z.leb_le | apply Z.ltb_lt]; lia.
  - destruct ((0 <=? index) && (index <? len items)) eqn:E; [| reflexivity].
    apply andb_true_iff in E as [E1 E2].
    apply Z.leb_le in E1; apply Z.ltb_lt in E2; lia.
Qed.

(** C6, as the code has it: on an integer instance [access_index] raises.
    [instance + " is not a collection."] adds a [str] to the instance itself,
    not to [str(instance)], so no [(value, error)] pair is returned. *)
Theorem access_index_int_raises (n index : Z) :
  access_index (VInt n) index
  = Raise (TypeError "unsupported operand type(s) for +").
Proof. reflexivity. Qed.

(** *** Type-mismatch messages *)

Lemma build_type_validator_error_Array
    (declared : Z) (child_expr expr : Expression) :
  build_type_validator_error declared child_expr expr
  = not_an_Array child_expr expr.
Proof. reflexivity. Qed.

Lemma validate_any_type_raises
    (expression : Expression) (declared : Z) (cs : list Expression) (e : exn) :
  validate_any_type expression declared cs = Raise e ->
  exists c, In c cs /\ e = Exception (not_an_Array c expression).
Proof.
  induction cs as [| c cs IH]; simpl; [discriminate |].
  destruct (_ && _).
  - intros [= <-]. exists c; split; [left |]; reflexivity.
  - intros H. destruct (IH H) as (c' & Hin & He).
    exists c'; split; [right |]; assumption.
Qed.

Lemma validate_child_raises
    (expression : Expression) (child_type : Z) (c : Expression) (e : exn) :
  validate_child expression child_type c = Raise e ->
  e = Exception (not_an_Array c expression).
Proof.
  unfold validate_child. destruct (_ && _); [| discriminate].
  intros [= <-]; reflexivity.
Qed.

Lemma validate_required_raises
    (expression : Expression) (types : list Z) (i : nat) (e : exn) :
  (i + List.length types <= List.length (children expression))%nat ->
  validate_required expression types i = Raise e ->
  exists c, In c (children expression)
            /\ e = Exception (not_an_Array c expression).
Proof.
  revert i. induction types as [| t types IH]; simpl; intros i Hlen;
    [discriminate |].
  unfold child.
  destruct (nth_error (children expression) i) as [c |] eqn:Hc.
  - simpl. destruct (validate_child expression t c) as [[] | e'] eqn:Hv; simpl.
    + apply IH; lia.
    + intros [= <-]. exists c; split.
      * eapply nth_error_In; eassumption.
      * eapply validate_child_raises; eassumption.
  - apply nth_error_None in Hc; lia.
Qed.

Lemma validate_optional_raises
    (expression : Expression) (optional : list Z) (i : nat) (e : exn) :
  validate_optional expression optional i = Raise e ->
  exists c, In c (children expression)
            /\ e = Exception (not_an_Array c expression).
Proof.
  revert i. induction optional as [| t optional IH]; simpl; intros i;
    [discriminate |].
  destruct (nth_error (children expression) i) as [c |] eqn:Hc;
    [| discriminate].
  destruct (validate_child expression t c) as [[] | e'] eqn:Hv; simpl.
  - apply IH.
  - intros [= <-]. exists c; split.
    + eapply nth_error_In; eassumption.
    + eapply validate_child_raises; eassumption.
Qed.

(** C10: whatever return type was declared, the type-mismatch message of
    [build_type_validator_error] names [Array] as the expected type, and so
    does the exception that [validate_arity_and_any_type] and
    [validate_order] raise on a node whose number of children is allowed:
    the declared type is compared with the tuples [(1,)], [(2,)], [(4,)]
    and [(8,)], which no return type equals. *)
Theorem type_mismatch_names_Array :
  (forall declared, py_eq (VInt declared) (VTuple [VInt 1]) = false
                    /\ py_eq (VInt declared) (VTuple [VInt 2]) = false
                    /\ py_eq (VInt declared) (VTuple [VInt 4]) = false
                    /\ py_eq (VInt declared) (VTuple [VInt 8]) = false)
  /\ (forall declared child_expr expr,
        build_type_validator_error declared child_expr expr
        = not_an_Array child_expr expr)
  /\ (forall expression min_arity max_arity declared e,
        min_arity <= len (children expression) <= max_arity ->
        validate_arity_and_any_type expression min_arity max_arity declared
        = Raise e ->
        exists c, In c (children expression)
                  /\ e = Exception (not_an_Array c expression))
  /\ (forall expression optional types e,
        len types <= len (children expression)
        <= len types + len (match optional with None => [] | Some o => o end) ->
        validate_order expression optional types = Raise e ->
        exists c, In c (children expression)
                  /\ e = Exception (not_an_Array c expression)).
Proof.
  split; [intros; repeat split |].
  split; [exact build_type_validator_error_Array |].
  split.
  - intros expression min_arity max_arity declared e Hlen.
    unfold validate_arity_and_any_type.
    destruct (Z.ltb_spec (len (children expression)) min_arity); [lia |].
    destruct (Z.gtb_spec (len (children expression)) max_arity); [lia |].
    destruct (_ =? 0); [| discriminate].
    apply validate_any_type_raises.
  - intros expression optional types e Hlen.
    unfold validate_order.
    set (o := match optional with None => [] | Some o => o end) in *.
    destruct (Z.ltb_spec (len (children expression)) (len types)); [lia |].
    destruct (Z.gtb_spec (len (children expression)) (len types + len o));
      [lia |].
    simpl.
    destruct (validate_required expression types 0) as [[] | e'] eqn:Hr; simpl.
    + apply validate_optional_raises.
    + intros [= <-]. eapply validate_required_raises; [| eassumption].
      unfold len in *; lia.
Qed.

(** *** Value or error *)

Lemma apply_exclusive
    (function : list value -> res value) (verify : option VerifyExpression)
    (expression : Expression) (state : stack) (options : Options) :
  exclusive (apply function verify expression state options).
Proof.
  unfold exclusive, apply.
  destruct (evaluate_children expression state options verify)
    as [[[args [error |]] | e] state']; simpl; auto.
  destruct (function args); simpl; auto.
  intros H; contradiction.
Qed.

Lemma apply_with_error_exclusive
    (function : list value -> res (value * option str))
    (verify : option VerifyExpression)
    (expression : Expression) (state : stack) (options : Options) :
  exclusive_function function ->
  exclusive (apply_with_error function verify expression state options).
Proof.
  intros Hf. unfold exclusive, apply_with_error.
  destruct (evaluate_children expression state options verify)
    as [[[args [error |]] | e] state']; simpl; auto.
  destruct (function args) as [[value [error |]] | e] eqn:E; simpl; auto.
  - intros _. eapply Hf; eassumption.
  - intros H; contradiction.
Qed.

Lemma sequence_with_error_exclusive
    (function : list value -> res (value * option str))
    (rest : list value) (so_far value : value) (error : str) :
  exclusive_function function ->
  sequence_with_error function rest so_far = Ok (value, Some error) ->
  value = VNone.
Proof.
  intros Hf. revert so_far.
  induction rest as [| arg rest IH]; simpl; intros so_far; [discriminate |].
  destruct (function [so_far; arg]) as [[v e] | x] eqn:E; simpl;
    [| discriminate].
  destruct (truthy e) eqn:T.
  - intros [= -> ->]. eapply Hf; eassumption.
  - apply IH.
Qed.

Lemma evaluate_loop_returns
    (cs : list Expression) (state : stack) (options : Options)
    (verify : option VerifyExpression)
    (args : list value) (error : option str) (pos : Z) :
  total_verify verify ->
  Forall (returns options) cs ->
  exists r, fst (evaluate_loop cs state options verify args error pos) = Ok r.
Proof.
  intros Hv Hcs. revert state args error pos.
  induction Hcs as [| c cs Hc _ IH]; simpl; intros state args error pos.
  - eexists; reflexivity.
  - destruct (Hc state) as [[value error'] Hr].
    destruct (try_evaluate c state options) as [r state'].
    simpl in Hr. subst r.
    destruct (truthy error'); [eexists; reflexivity |].
    destruct verify as [v |]; simpl in Hv.
    + destruct (Hv value c pos) as [err ->].
      destruct (truthy err); [eexists; reflexivity | apply IH].
    + destruct (truthy error'); [eexists; reflexivity | apply IH].
Qed.

(** An exception of the evaluation of the children is the exception of the
    three evaluators: [evaluate_children] is called outside their [try]. *)
Lemma apply_raises
    (verify : option VerifyExpression)
    (expression : Expression) (state state' : stack) (options : Options)
    (e : exn) :
  evaluate_children expression state options verify = (Raise e, state') ->
  (forall function,
      apply function verify expression state options = (Raise e, state'))
  /\ (forall function,
        apply_with_error function verify expression state options
        = (Raise e, state'))
  /\ (forall function,
        apply_sequence_with_error function verify expression state options
        = (Raise e, state')).
Proof.
  intros H. unfold apply_sequence_with_error, apply_with_error, apply.
  rewrite H. repeat split.
Qed.

(** C1, as the code has it: an evaluator built with [apply] never returns
    both a value and an error, and one built with [apply_with_error] or
    [apply_sequence_with_error] never does when the function it wraps never
    does, whose pair it hands on as it is.  With a verifier that returns for
    every argument, over children whose evaluations return, the three
    evaluators return a pair. *)
Theorem apply_value_or_error
    (verify : option VerifyExpression)
    (expression : Expression) (state : stack) (options : Options) :
  (forall function,
      exclusive (apply function verify expression state options))
  /\ (forall function,
        exclusive_function function ->
        exclusive (apply_with_error function verify expression state options)
        /\ exclusive (apply_sequence_with_error function verify
                        expression state options))
  /\ (total_verify verify ->
      Forall (returns options) (children expression) ->
      (forall function, exists r,
          fst (apply function verify expression state options) = Ok r)
      /\ (forall function, exists r,
            fst (apply_with_error function verify expression state options)
            = Ok r)
      /\ (forall function, exists r,
            fst (apply_sequence_with_error function verify
                   expression state options) = Ok r)).
Proof.
  split; [intros; apply apply_exclusive |].
  split.
  - intros function Hf. split; [apply apply_with_error_exclusive, Hf |].
    unfold apply_sequence_with_error.
    apply apply_with_error_exclusive.
    intros [| so_far rest] value error; [discriminate |].
    apply sequence_with_error_exclusive, Hf.
  - intros Hv Hcs.
    assert (Hc : exists r,
               fst (evaluate_children expression state options verify) = Ok r)
      by (apply evaluate_loop_returns; assumption).
    destruct Hc as [[args error] Hc].
    unfold apply_sequence_with_error, apply_with_error, apply.
    destruct (evaluate_children expression state options verify)
      as [r state']; simpl in Hc; subst r.
    repeat split; intros function; destruct error;
      try (eexists; reflexivity).
    + destruct (function args); eexists; reflexivity.
    + destruct (function args) as [[] |]; eexists; reflexivity.
    + destruct args as [| so_far rest]; [eexists; reflexivity |].
      destruct (sequence_with_error function rest so_far) as [[] |];
        eexists; reflexivity.
Qed.

(** *** Sequenced reduction *)

Lemma sequence_fold
    (function : list value -> res value) (rest : list value) (r : res value) :
  (so_far <- r ;; sequence function rest so_far)
  = fold_left (fun acc arg => so_far <- acc ;; function [so_far; arg]) rest r.
Proof.
  revert r. induction rest as [| arg rest IH]; intros r; simpl.
  - destruct r; reflexivity.
  - rewrite <- IH. destruct r; reflexivity.
Qed.

Lemma sequence_binary
    (g : value -> value -> value) (rest : list value) (so_far : value) :
  sequence (binary g) rest so_far = Ok (fold_left g rest so_far).
Proof.
  revert so_far. induction rest as [| arg rest IH]; intros so_far; simpl;
    [reflexivity | apply IH].
Qed.

(** C8: over the arguments [a0, a1, ..., an], two at least, the function of
    [apply_sequence] is the left fold [f(...f(f(a0, a1), a2)..., an)] of the
    binary function, an exception of [f] ending it; for four arguments it is
    [((a + b) + c) + d].  The evaluator returns that fold of the children's
    values as its value. *)
Theorem apply_sequence_left_fold :
  (forall function a0 a1 rest,
      apply_sequence_function function (a0 :: a1 :: rest)
      = fold_left (fun acc arg => so_far <- acc ;; function [so_far; arg])
          (a1 :: rest) (Ok a0))
  /\ (forall g a0 a1 rest,
        apply_sequence_function (binary g) (a0 :: a1 :: rest)
        = Ok (fold_left g (a1 :: rest) a0))
  /\ (forall g a b c d,
        apply_sequence_function (binary g) [a; b; c; d]
        = Ok (g (g (g a b) c) d))
  /\ (forall g verify expression state options a0 a1 rest state',
        evaluate_children expression state options verify
        = (Ok (a0 :: a1 :: rest, None), state') ->
        apply_sequence (binary g) verify expression state options
        = (Ok (fold_left g (a1 :: rest) a0, None), state')).
Proof.
  repeat split.
  - intros function a0 a1 rest.
    unfold apply_sequence_function.
    exact (sequence_fold function (a1 :: rest) (Ok a0)).
  - intros g a0 a1 rest. apply (sequence_binary g (a1 :: rest) a0).
  - intros g verify expression state options a0 a1 rest state' H.
    unfold apply_sequence, apply. rewrite H.
    unfold apply_sequence_function.
    rewrite (sequence_binary g (a1 :: rest) a0). reflexivity.
Qed.

(** *** Data URIs *)

Lemma to_N_byte_of_N (n : N) : (n < 256)%N -> Byte.to_N (byte_of_N n) = n.
Proof.
  intros H. unfold byte_of_N.
  destruct (Byte.of_N n) as [b |] eqn:E.
  - apply Byte.to_of_N, E.
  - apply Byte.of_N_None_iff in E. lia.
Qed.

Lemma byte_of_to_N (b : byte) : byte_of_N (Byte.to_N b) = b.
Proof. unfold byte_of_N. rewrite Byte.of_to_N. reflexivity. Qed.

(** [lia] with the equations of division and remainder by a constant. *)
Ltac div_lia := zify; Z.to_euclidean_division_equations; lia.

Ltac decide_tests :=
  repeat match goal with
  | |- context [(?a <? ?b)%N] => destruct (N.ltb_spec a b); try div_lia
  | |- context [(?a <=? ?b)%N] => destruct (N.leb_spec a b); try div_lia
  | |- context [(?a =? ?b)%N] => destruct (N.eqb_spec a b); try div_lia
  end.

Lemma utf8_decode_char (c : N) (bs : list byte) :
  (c < 1114112)%N ->
  is_surrogate c = false ->
  utf8_decode (utf8_char c ++ bs) = option_map (Str c) (utf8_decode bs).
Proof.
  intros Hc Hs. unfold is_surrogate in Hs.
  assert (Hn : (c < 55296 \/ 57343 < c)%N).
  { destruct (N.leb_spec 55296 c); [| lia].
    destruct (N.leb_spec c 57343); [discriminate Hs | lia]. }
  clear Hs. unfold utf8_char.
  destruct (N.ltb_spec c 128); [| destruct (N.ltb_spec c 2048);
    [| destruct (N.ltb_spec c 65536)]];
    cbn [app utf8_decode]; unfold is_continuation, is_surrogate;
    rewrite !to_N_byte_of_N by div_lia.
  - decide_tests. reflexivity.
  - decide_tests. cbn [andb].
    replace ((192 + c / 64 - 192) * 64 + (128 + c mod 64 - 128))%N with c
      by div_lia.
    reflexivity.
  - set (d := ((224 + c / 4096 - 224) * 4096 + (128 + c / 64 mod 64 - 128) * 64
               + (128 + c mod 64 - 128))%N).
    assert (Hd : d = c) by (unfold d; div_lia).
    rewrite Hd. decide_tests; cbn [andb negb]; reflexivity.
  - set (d := ((240 + c / 262144 - 240) * 262144
               + (128 + c / 4096 mod 64 - 128) * 4096
               + (128 + c / 64 mod 64 - 128) * 64
               + (128 + c mod 64 - 128))%N).
    assert (Hd : d = c) by (unfold d; div_lia).
    rewrite Hd. decide_tests; cbn [andb negb]; reflexivity.
Qed.

Lemma first_surrogates_none (s : str) (i : Z) :
  first_surrogates s i = None <-> has_surrogate s = false.
Proof.
  revert i. induction s as [| c s IH]; intros i; simpl; [split; reflexivity |].
  destruct (is_surrogate c); simpl; [split; discriminate | apply IH].
Qed.

Lemma utf8_encode_bytes (s : str) :
  has_surrogate s = false -> utf8_encode s = Ok (utf8_bytes s).
Proof.
  intros H. unfold utf8_encode.
  rewrite (proj2 (first_surrogates_none s 0) H). reflexivity.
Qed.

Lemma utf8_encode_raises (s : str) :
  has_surrogate s = true ->
  exists msg, utf8_encode s = Raise (UnicodeEncodeError msg).
Proof.
  intros H. unfold utf8_encode.
  destruct (first_surrogates s 0) as [[start run] |] eqn:E.
  - eexists. reflexivity.
  - apply first_surrogates_none in E. congruence.
Qed.

Lemma utf8_roundtrip (s : str) :
  code_points s = true ->
  has_surrogate s = false ->
  utf8_decode (utf8_bytes s) = Some s.
Proof.
  induction s as [| c s IH]; [reflexivity |].
  simpl. intros Hc Hs.
  apply andb_true_iff in Hc as [Hc Hcs]. apply N.ltb_lt in Hc.
  apply orb_false_iff in Hs as [Hs Hss].
  rewrite (utf8_decode_char c _ Hc Hs), (IH Hcs Hss). reflexivity.
Qed.

Lemma b64_index_char (i : N) : (i < 64)%N -> b64_index (b64_char i) = Some i.
Proof.
  intros H. unfold b64_char, b64_index, chr.
  destruct (N.ltb_spec i 26); [| destruct (N.ltb_spec i 52);
    [| destruct (N.ltb_spec i 62); [| destruct (N.eqb_spec i 62)]]].
  1-3: decide_tests; cbn [andb]; f_equal; div_lia.
  - subst i. reflexivity.
  - assert (i = 63)%N as -> by div_lia. reflexivity.
Qed.

Lemma list3_ind (A : Type) (P : list A -> Prop) :
  P [] -> (forall a, P [a]) -> (forall a b, P [a; b]) ->
  (forall a b c l, P l -> P (a :: b :: c :: l)) ->
  forall l, P l.
Proof.
  intros H0 H1 H2 H3.
  fix IH 1. intros [| a [| b [| c l]]];
    [exact H0 | exact (H1 a) | exact (H2 a b) | exact (H3 a b c l (IH l))].
Qed.

Lemma b64_roundtrip (bs : list byte) : b64decode (b64encode bs) = Some bs.
Proof.
  induction bs as [| a | a b | a b c bs IH] using list3_ind.
  - reflexivity.
  - cbn [b64encode b64decode].
    pose proof (Byte.to_N_bounded a) as Ha.
    replace (Some [a]) with (Some [byte_of_N (Byte.to_N a)])
      by (rewrite byte_of_to_N; reflexivity).
    set (x := Byte.to_N a) in *. clearbody x.
    rewrite !b64_index_char by div_lia.
    change (b64_index 61) with (@None N). cbn.
    do 3 f_equal. div_lia.
  - cbn [b64encode b64decode].
    pose proof (Byte.to_N_bounded a) as Ha.
    pose proof (Byte.to_N_bounded b) as Hb.
    replace (Some [a; b])
      with (Some [byte_of_N (Byte.to_N a); byte_of_N (Byte.to_N b)])
      by (rewrite !byte_of_to_N; reflexivity).
    set (x := Byte.to_N a) in *. set (y := Byte.to_N b) in *. clearbody x y.
    rewrite !b64_index_char by div_lia.
    change (b64_index 61) with (@None N). cbn.
    f_equal. f_equal; [f_equal ; div_lia | f_equal; f_equal ; div_lia].
  - cbn [b64encode b64decode].
    pose proof (Byte.to_N_bounded a) as Ha.
    pose proof (Byte.to_N_bounded b) as Hb.
    pose proof (Byte.to_N_bounded c) as Hc.
    replace (Some (a :: b :: c :: bs))
      with (Some (byte_of_N (Byte.to_N a) :: byte_of_N (Byte.to_N b)
                  :: byte_of_N (Byte.to_N c) :: bs))
      by (rewrite !byte_of_to_N; reflexivity).
    set (x := Byte.to_N a) in *. set (y := Byte.to_N b) in *.
    set (z := Byte.to_N c) in *. clearbody x y z.
    rewrite !b64_index_char by div_lia.
    rewrite IH. cbn [option_map].
    f_equal. f_equal; [f_equal ; div_lia |]. f_equal; [f_equal ; div_lia |].
    f_equal. f_equal. div_lia.
Qed.

Lemma evaluate_children_unary_string
    (expression c : Expression) (state state' : stack) (options : Options)
    (s : str) :
  children expression = [c] ->
  try_evaluate c state options = (Ok (VStr s, None), state') ->
  evaluate_children expression state options (Some verify_string)
  = (Ok ([VStr s], None), state').
Proof.
  intros Hc He. unfold evaluate_children. rewrite Hc. simpl.
  rewrite He. reflexivity.
Qed.

(** C9, as the code has it: for a string argument [s] that holds no
    surrogate, [dataUri(s)] is the prefix
    [data:text/plain;charset=utf-8;base64,] followed by the base64 encoding
    of the UTF-8 bytes of [s], for the function and for the evaluator on a
    node whose child evaluates to [s]: what follows the prefix decodes from
    base64 to bytes that decode from UTF-8 to [s].  For a string that holds
    a surrogate the encoding raises [UnicodeEncodeError]: the evaluator
    returns its message as the error, and no data URI.
    [dataUri("hello")] is [data:text/plain;charset=utf-8;base64,aGVsbG8=]. *)
Theorem data_uri_spec :
  (forall s,
      has_surrogate s = false ->
      utf8_encode s = Ok (utf8_bytes s)
      /\ data_uri_function [VStr s]
         = Ok (VStr ("data:text/plain;charset=utf-8;base64,"
                     ++ b64encode (utf8_bytes s))))
  /\ (forall s,
        b64decode (b64encode (utf8_bytes s)) = Some (utf8_bytes s)
        /\ (code_points s = true ->
            has_surrogate s = false ->
            utf8_decode (utf8_bytes s) = Some s))
  /\ (forall s,
        has_surrogate s = true ->
        exists msg,
          utf8_encode s = Raise (UnicodeEncodeError msg)
          /\ data_uri_function [VStr s] = Raise (UnicodeEncodeError msg))
  /\ (forall expression c state state' options s,
        children expression = [c] ->
        try_evaluate c state options = (Ok (VStr s, None), state') ->
        (has_surrogate s = false ->
         DataUri_evaluator expression state options
         = (Ok (VStr ("data:text/plain;charset=utf-8;base64,"
                      ++ b64encode (utf8_bytes s)), None), state'))
        /\ (has_surrogate s = true ->
            exists msg,
              utf8_encode s = Raise (UnicodeEncodeError msg)
              /\ DataUri_evaluator expression state options
                 = (Ok (VNone, Some msg), state')))
  /\ data_uri_function [VStr "hello"]
     = Ok (VStr "data:text/plain;charset=utf-8;base64,aGVsbG8=").
Proof.
  split.
  { intros s Hs. split; [apply utf8_encode_bytes, Hs |].
    unfold data_uri_function. cbn [py_str].
    rewrite (utf8_encode_bytes s Hs). reflexivity. }
  split; [intros s; split; [apply b64_roundtrip | apply utf8_roundtrip] |].
  split.
  { intros s Hs. destruct (utf8_encode_raises s Hs) as [msg E].
    exists msg. split; [exact E |].
    unfold data_uri_function. cbn [py_str]. rewrite E. reflexivity. }
  split; [| reflexivity].
  intros expression c state state' options s Hc He.
  unfold DataUri_evaluator, apply.
  rewrite (evaluate_children_unary_string expression c state state' options s Hc He).
  unfold data_uri_function. cbn [py_str]. split; intros Hs.
  - rewrite (utf8_encode_bytes s Hs). reflexivity.
  - destruct (utf8_encode_raises s Hs) as [msg E].
    exists msg. split; [exact E |]. rewrite E. reflexivity.
Qed.

(** *** Path accumulation *)

Lemma walks_accumulate
    (options : Options) (left : Expression) (path : str) (state : stack)
    (left' : Expression) (path' : str) (state' : stack) :
  walks options left path state left' path' state' ->
  accumulate left path state options = accumulate left' path' state' options.
Proof.
  induction 1 as
    [ left path state
    | left name parent v path state left' path' state' Ht Hc Hv _ IH
    | left container index rest value n path state state1 left' path' state'
        Ht Hc He Hi Hn _ IH
    | left container index rest s path state state1 left' path' state'
        Ht Hc He _ IH ];
    [reflexivity | | |];
    rewrite <- IH; destruct left as [type cs rt k]; simpl in Ht, Hc;
    subst type cs; simpl.
  - rewrite Hv. reflexivity.
  - rewrite He, Hi, Hn. reflexivity.
  - rewrite He. reflexivity.
Qed.

Lemma accumulate_residual
    (options : Options) (left : Expression) (path : str) (state : stack) :
  expr_type left <> ACCESSOR ->
  expr_type left <> ELEMENT ->
  accumulate left path state options
  = (Ok (accumulated path (Some left)), state).
Proof.
  intros Ha He. destruct left as [type cs rt k]; simpl in *.
  destruct (str_eqb_spec type ACCESSOR); [contradiction |].
  destruct (str_eqb_spec type ELEMENT); [contradiction |].
  reflexivity.
Qed.

Lemma accumulate_unusable_subscript
    (options : Options) (left : Expression) (path : str) (state : stack) :
  unusable_subscript left state options ->
  exists e state', accumulate left path state options = (Raise e, state').
Proof.
  intros (Ht & container & index & rest & value & state' & Hc & He & Hi & Hs).
  destruct left as [type cs rt k]; simpl in Ht, Hc; subst type cs; simpl.
  rewrite He, Hi.
  destruct value; try discriminate Hs; eexists; eexists; reflexivity.
Qed.

(** C7, as the code has it: [try_accumulate_path] returns the residual
    left-subtree together with the path collected so far when the walk
    reaches a node that is neither an accessor nor an element, every
    subscript on the way having evaluated to an integer or to a string; an
    element whose subscript evaluates without error to a value that is
    neither an integer nor a string does not stop the walk with a residual
    and a path: nothing is returned for the caller to evaluate. *)
Theorem try_accumulate_path_residual
    (expression : Expression) (state : stack) (options : Options)
    (left : Expression) (path : str) (state' : stack) :
  walks options expression EmptyStr state left path state' ->
  (expr_type left <> ACCESSOR ->
   expr_type left <> ELEMENT ->
   try_accumulate_path expression state options
   = (Ok (accumulated path (Some left)), state'))
  /\ (unusable_subscript left state' options ->
      forall path' residual error,
        fst (try_accumulate_path expression state options)
        <> Ok (path', Some residual, error)).
Proof.
  intros Hw. unfold try_accumulate_path.
  rewrite (walks_accumulate options expression EmptyStr state left path state' Hw).
  split.
  - apply accumulate_residual.
  - intros Hu path' residual error.
    destruct (accumulate_unusable_subscript options left path state' Hu)
      as (e & st & ->).
    discriminate.
Qed.

(** *** Higher-order forms *)

Lemma collect_first_error
    (pre post : list (res (value * option str))) (v : value)
    (error : str) (result : list value) :
  Forall succeeds pre ->
  collect (pre ++ Ok (v, Some error) :: post) result = Ok (VNone, Some error).
Proof.
  intros Hpre. revert result.
  induction Hpre as [| x pre [w ->] _ IH]; intros result; simpl;
    [reflexivity | apply IH].
Qed.

Lemma collect_first_raise
    (pre post : list (res (value * option str))) (e : exn)
    (result : list value) :
  Forall succeeds pre ->
  collect (pre ++ Raise e :: post) result = Raise e.
Proof.
  intros Hpre. revert result.
  induction Hpre as [| x pre [w ->] _ IH]; intros result; simpl;
    [reflexivity | apply IH].
Qed.

Lemma collect_values (values result : list value) :
  collect (map (fun v => Ok (v, None)) values) result
  = Ok (VList (result ++ values), None).
Proof.
  revert result. induction values as [| v values IH]; intros result; simpl.
  - rewrite app_nil_r. reflexivity.
  - rewrite IH, <- app_assoc. reflexivity.
Qed.

Lemma collect_returns
    (rs : list (res (value * option str))) (result : list value) :
  Forall (fun r => exists p, r = Ok p) rs ->
  exists p, collect rs result = Ok p.
Proof.
  intros H. revert result.
  induction H as [| r rs [[v [error |]] ->] _ IH]; intros result; simpl.
  - eexists. reflexivity.
  - eexists. reflexivity.
  - apply IH.
Qed.

Lemma pop_append (frames : stack) (frame : memory) :
  StackedMemory_pop (StackedMemory_append frames frame) = Ok frames.
Proof.
  unfold StackedMemory_pop, StackedMemory_append.
  rewrite removelast_last.
  destruct frames; reflexivity.
Qed.

(** One turn of the two loops: what the evaluation of the body in the frame
    of [item] gives, and the frames it leaves. *)
Lemma body_turn
    (body : Expression) (options : Options) (iterator_name : str)
    (state : stack) (item : value) :
  balanced options body ->
  try_evaluate body
    (StackedMemory_append state (iterator_frame iterator_name item)) options
  = (body_result body options iterator_name state item,
     StackedMemory_append state (iterator_frame iterator_name item)).
Proof.
  intros Hb. unfold body_result.
  pose proof (Hb
    (StackedMemory_append state (iterator_frame iterator_name item))) as Hs.
  destruct (try_evaluate body
    (StackedMemory_append state (iterator_frame iterator_name item)) options)
    as [r state2].
  simpl in Hs. subst state2. reflexivity.
Qed.

Lemma foreach_loop_collect
    (expression body : Expression) (options : Options)
    (iterator_name : str) (arr : list value) (state : stack)
    (result : list value) :
  balanced options body ->
  child expression 2 = Ok body ->
  fst (foreach_loop expression options iterator_name arr state result)
  = collect (map (body_result body options iterator_name state) arr) result
  /\ ((exists p,
          collect (map (body_result body options iterator_name state) arr)
            result = Ok p) ->
      snd (foreach_loop expression options iterator_name arr state result)
      = state).
Proof.
  intros Hb Hc. revert result.
  induction arr as [| item arr IH]; intros result; simpl;
    [split; reflexivity |].
  rewrite Hc, (body_turn body options iterator_name state item Hb).
  destruct (body_result body options iterator_name state item)
    as [[v error] | e].
  - rewrite pop_append. simpl. destruct error; [split; reflexivity | apply IH].
  - split; [reflexivity |]. intros [p Hp]. discriminate Hp.
Qed.

Lemma foreach_loop_raise
    (expression body : Expression) (options : Options)
    (iterator_name : str) (pre post : list value) (item : value)
    (state : stack) (result : list value) (e : exn) :
  balanced options body ->
  child expression 2 = Ok body ->
  Forall (fun x => succeeds (body_result body options iterator_name state x))
    pre ->
  body_result body options iterator_name state item = Raise e ->
  foreach_loop expression options iterator_name (pre ++ item :: post)%list
    state result
  = (Raise e, StackedMemory_append state (iterator_frame iterator_name item)).
Proof.
  intros Hb Hc Hpre He. revert result.
  induction Hpre as [| x pre [v Hx] _ IH]; intros result; simpl; rewrite Hc.
  - rewrite (body_turn body options iterator_name state item Hb), He.
    reflexivity.
  - rewrite (body_turn body options iterator_name state x Hb), Hx, pop_append.
    simpl. apply IH.
Qed.

Lemma validate_foreach_children (expression : Expression) :
  validate_foreach expression = Ok tt ->
  exists collection second body,
    children expression = [collection; second; body].
Proof.
  unfold validate_foreach.
  destruct (Z.eqb_spec (len (children expression)) 3) as [H3 | H3]; simpl;
    [| discriminate].
  intros _. unfold len in H3.
  destruct (children expression) as [| c0 [| c1 [| c2 [| c3 cs]]]];
    simpl in H3; try lia.
  exists c0, c1, c2. reflexivity.
Qed.

Lemma map_body_returns
    (body : Expression) (options : Options) (iterator_name : str)
    (state : stack) (arr : list value) :
  returns options body ->
  Forall (fun r => exists p, r = Ok p)
    (map (body_result body options iterator_name state) arr).
Proof.
  intros Hr. apply Forall_map, Forall_forall. intros x _.
  apply (Hr (StackedMemory_append state (iterator_frame iterator_name x))).
Qed.

(** C2, as the code has it: on a node that [validate_foreach] accepts, when
    the evaluations of its children leave the frames of the memory as they
    found them, [foreach] (the evaluator of [foreach] and of [select]) leaves
    the memory with the frames it had before the call whenever the
    evaluations of the body return: every frame it pushes is popped, whether
    the elements succeed or one returns an error.  Over the elements of the
    iterable, the first error of the body ends the iteration and is the
    error returned, with no value; when every element succeeds the values are
    returned in order.  A body that raises ends the iteration too, and the
    frame of its element stays on the memory: nothing pops it. *)
Theorem foreach_stack_discipline
    (expression : Expression) (state : stack) (options : Options) :
  validate_foreach expression = Ok tt ->
  Forall (balanced options) (children expression) ->
  ((forall body, child expression 2 = Ok body -> returns options body) ->
   snd (foreach expression state options) = state)
  /\ forall collection second body instance iterator_name arr,
      children expression = [collection; second; body] ->
      fst (try_evaluate collection state options) = Ok (instance, None) ->
      iterator_name_of expression = Ok iterator_name ->
      elements_of instance = Some arr ->
      let result_of := body_result body options iterator_name state in
      fst (foreach expression state options) = collect (map result_of arr) []
      /\ (forall pre item post v error,
            arr = (pre ++ item :: post)%list ->
            Forall (fun x => succeeds (result_of x)) pre ->
            result_of item = Ok (v, Some error) ->
            foreach expression state options
            = (Ok (VNone, Some error), state))
      /\ (forall values,
            map result_of arr = map (fun v => Ok (v, None)) values ->
            foreach expression state options
            = (Ok (VList values, None), state))
      /\ (forall pre item post e,
            arr = (pre ++ item :: post)%list ->
            Forall (fun x => succeeds (result_of x)) pre ->
            result_of item = Raise e ->
            foreach expression state options
            = (Raise e,
               StackedMemory_append state (iterator_frame iterator_name item))).
Proof.
  intros Hv Hb.
  destruct (validate_foreach_children expression Hv)
    as (c0 & c1 & c2 & Hcs).
  assert (H0 : child expression 0 = Ok c0) by (unfold child; rewrite Hcs; reflexivity).
  assert (H2 : child expression 2 = Ok c2) by (unfold child; rewrite Hcs; reflexivity).
  rewrite Hcs in Hb.
  assert (Hb0 : balanced options c0) by (inversion Hb; assumption).
  assert (Hb2 : balanced options c2)
    by (inversion Hb as [| ? ? _ Hb']; inversion Hb' as [| ? ? _ Hb''];
        inversion Hb''; assumption).
  split.
  - intros Hr. specialize (Hr c2 H2). unfold foreach. rewrite H0.
    pose proof (Hb0 state) as Hs.
    destruct (try_evaluate c0 state options) as [[[instance error] | e] state1];
      simpl in Hs; subst state1; [| reflexivity].
    destruct (if is_none instance then _ else error); [reflexivity |].
    destruct (iterator_name_of expression) as [name |]; [| reflexivity].
    destruct (elements_of instance) as [arr |]; [| reflexivity].
    unfold StackedMemory_wrap.
    apply (foreach_loop_collect expression c2 options name arr state [] Hb2 H2).
    apply collect_returns, map_body_returns, Hr.
  - intros collection second body instance iterator_name arr Hc He Hn Ha result_of.
    rewrite Hcs in Hc. injection Hc as <- <- <-.
    assert (Hf : foreach expression state options
                 = foreach_loop expression options iterator_name arr state []).
    { unfold foreach. rewrite H0.
      pose proof (Hb0 state) as Hs.
      destruct (try_evaluate c0 state options) as [r state1].
      simpl in Hs, He. subst state1 r.
      destruct instance; try discriminate Ha; simpl; rewrite Hn;
        simpl in Ha |- *; injection Ha as <-; reflexivity. }
    destruct (foreach_loop_collect expression c2 options iterator_name arr
                state [] Hb2 H2) as [H1 H3].
    fold result_of in H1, H3.
    split; [rewrite Hf; exact H1 |]. split; [| split].
    + intros pre item post v error -> Hpre Hitem.
      assert (Hcol : collect (map result_of (pre ++ item :: post)%list) []
                     = Ok (VNone, Some error)).
      { rewrite map_app. simpl. rewrite Hitem.
        apply collect_first_error, Forall_map, Hpre. }
      rewrite Hf, (surjective_pairing (foreach_loop _ _ _ _ _ _)).
      rewrite H1, H3, Hcol; [reflexivity | eexists; exact Hcol].
    + intros values Hall.
      assert (Hcol : collect (map result_of arr) [] = Ok (VList values, None)).
      { rewrite Hall. apply collect_values. }
      rewrite Hf, (surjective_pairing (foreach_loop _ _ _ _ _ _)).
      rewrite H1, H3, Hcol; [reflexivity | eexists; exact Hcol].
    + intros pre item post e -> Hpre Hitem. rewrite Hf.
      apply (foreach_loop_raise expression c2 options iterator_name pre post
               item state [] e Hb2 H2 Hpre Hitem).
Qed.

Lemma where_loop_balanced
    (expression body : Expression) (options : Options)
    (iterator_name : str) (arr : list value) (state : stack)
    (result : list value) :
  balanced options body ->
  returns options body ->
  child expression 2 = Ok body ->
  snd (where_loop expression options iterator_name arr state result) = state
  /\ forall pre item post v error,
      arr = (pre ++ item :: post)%list ->
      Forall (fun x => succeeds (body_result body options iterator_name state x))
        pre ->
      body_result body options iterator_name state item
      = Ok (v, Some error) ->
      fst (where_loop expression options iterator_name arr state result)
      = Ok (VNone, Some error).
Proof.
  intros Hb Hr Hc. revert result.
  induction arr as [| x arr IH]; intros result; simpl.
  - split; [reflexivity |].
    intros [| y pre] item post v error Harr; discriminate Harr.
  - rewrite Hc, (body_turn body options iterator_name state x Hb).
    destruct (Hr (StackedMemory_append state (iterator_frame iterator_name x)))
      as [[w err] Hx].
    fold (body_result body options iterator_name state x) in Hx.
    rewrite Hx, pop_append. simpl.
    destruct err as [err |].
    + split; [reflexivity |].
      intros [| y pre] item post v error [= <- _] Hpre Hitem.
      * rewrite Hx in Hitem. injection Hitem as <- <-. reflexivity.
      * apply Forall_inv in Hpre. destruct Hpre as [u Hu].
        rewrite Hx in Hu. discriminate.
    + destruct (IH (if is_logic_true w then result ++ [x] else result)%list)
        as [IH1 IH2].
      split; [exact IH1 |].
      intros [| y pre] item post v error [= <- Harr] Hpre Hitem.
      * rewrite Hx in Hitem. discriminate.
      * eapply IH2; eauto. eapply Forall_inv_tail; eassumption.
Qed.

(** The discipline of [foreach] for the model of [where]: the frames of the
    memory are those before the call, and the first error of the body is the
    error returned. *)
Lemma where_stack_discipline
    (expression : Expression) (state : stack) (options : Options) :
  validate_foreach expression = Ok tt ->
  Forall (balanced options) (children expression) ->
  (forall body, child expression 2 = Ok body -> returns options body) ->
  snd (where_evaluator expression state options) = state
  /\ forall collection second body instance iterator_name pre item post v error,
      children expression = [collection; second; body] ->
      fst (try_evaluate collection state options) = Ok (instance, None) ->
      iterator_name_of expression = Ok iterator_name ->
      elements_of instance = Some (pre ++ item :: post)%list ->
      Forall (fun x => succeeds (body_result body options iterator_name state x))
        pre ->
      body_result body options iterator_name state item
      = Ok (v, Some error) ->
      fst (where_evaluator expression state options) = Ok (VNone, Some error).
Proof.
  intros Hv Hb Hr.
  destruct (validate_foreach_children expression Hv)
    as (c0 & c1 & c2 & Hcs).
  assert (H0 : child expression 0 = Ok c0) by (unfold child; rewrite Hcs; reflexivity).
  assert (H2 : child expression 2 = Ok c2) by (unfold child; rewrite Hcs; reflexivity).
  specialize (Hr c2 H2).
  rewrite Hcs in Hb.
  assert (Hb0 : balanced options c0) by (inversion Hb; assumption).
  assert (Hb2 : balanced options c2)
    by (inversion Hb as [| ? ? _ Hb']; inversion Hb' as [| ? ? _ Hb''];
        inversion Hb''; assumption).
  unfold where_evaluator. rewrite H0.
  pose proof (Hb0 state) as Hs.
  destruct (try_evaluate c0 state options) as [r state1] eqn:E0.
  simpl in Hs; subst state1.
  split.
  - destruct r as [[i e] | x]; [| reflexivity].
    destruct e; [reflexivity |].
    destruct (iterator_name_of expression) as [name |]; [| reflexivity].
    destruct (elements_of i) as [arr |]; [| reflexivity].
    apply (where_loop_balanced expression c2 options name arr state [] Hb2 Hr H2).
  - intros collection second body instance iterator_name pre item post v error
      Hc He Hn Ha Hpre Hitem.
    rewrite Hcs in Hc. injection Hc as <- <- <-.
    rewrite E0 in He. simpl in He. subst r.
    rewrite Hn, Ha.
    eapply (where_loop_balanced expression c2 options iterator_name _ state []
              Hb2 Hr H2); eauto.
Qed.

(** *** Equality *)

Lemma number_not_none (a : value) :
  isinstance_Number a = true ->
  is_none a = false /\ is_empty_list a = false /\ is_empty_dict a = false.
Proof. destruct a; simpl; try discriminate; auto. Qed.

(** C3, as the code has it: two nulls are equal, a null and a value that is
    not null are not, two empty lists are equal and so are two empty
    mappings; two numbers whose conversions to [float] are [x] and [y] are
    equal exactly when [abs(x - y) < 0.00000001] in binary64 arithmetic or
    [a == b]; in particular they are equal whenever
    [abs(x - y) < 0.00000001]. *)
Theorem is_equal_spec :
  is_equal [VNone; VNone] = Ok true
  /\ (forall v, v <> VNone ->
        is_equal [VNone; v] = Ok false /\ is_equal [v; VNone] = Ok false)
  /\ is_equal [VList []; VList []] = Ok true
  /\ is_equal [VDict []; VDict []] = Ok true
  /\ (forall a b x y,
        isinstance_Number a = true ->
        isinstance_Number b = true ->
        py_float a = Ok x ->
        py_float b = Ok y ->
        let within := PrimFloat.ltb (PrimFloat.abs (PrimFloat.sub x y)) tolerance in
        is_equal [a; b] = Ok (within || py_eq a b)
        /\ (within = true -> is_equal [a; b] = Ok true)).
Proof.
  split; [reflexivity |].
  split.
  { intros v Hv. destruct v; try contradiction; split; reflexivity. }
  split; [reflexivity |].
  split; [reflexivity |].
  intros a b x y Ha Hb Hx Hy within.
  assert (E : is_equal [a; b] = Ok (within || py_eq a b)).
  { unfold is_equal.
    destruct (number_not_none a Ha) as (-> & -> & ->).
    destruct (number_not_none b Hb) as (-> & _ & _).
    rewrite Ha, Hb. simpl. unfold close. rewrite Hx, Hy. simpl.
    fold within. destruct within; reflexivity. }
  split; [exact E |].
  intros Hw. rewrite E, Hw. reflexivity.
Qed.

(** *** Static validation *)

Lemma validate_any_type_accepts
    (expression : Expression) (declared : Z) (cs : list Expression) :
  Z.land declared ReturnType.Object = 0 ->
  (validate_any_type expression declared cs = Ok tt
   <-> forallb (accepts declared) cs = true).
Proof.
  intros Hd. unfold accepts. rewrite Hd. simpl.
  induction cs as [| c cs IH]; simpl; [split; reflexivity |].
  destruct (Z.land (return_type c) ReturnType.Object =? 0);
    destruct (Z.land declared (return_type c) =? 0); simpl;
    try exact IH.
  split; discriminate.
Qed.

Lemma forallb_accepts_Object (declared : Z) (cs : list Expression) :
  Z.land declared ReturnType.Object <> 0 ->
  forallb (accepts declared) cs = true.
Proof.
  intros Hd. apply forallb_forall. intros c _. unfold accepts.
  destruct (Z.eqb_spec (Z.land declared ReturnType.Object) 0);
    [contradiction | reflexivity].
Qed.

(** [validate_arity_and_any_type] accepts a node exactly when the number of
    its children is between [min_arity] and [max_arity] and every child fits
    the declared type; [validate_unary_string] accepts exactly the nodes with
    one child that fits [String]. *)
Theorem validate_arity_and_any_type_accepts
    (expression : Expression) (min_arity max_arity declared : Z) :
  (validate_arity_and_any_type expression min_arity max_arity declared = Ok tt
   <-> min_arity <= len (children expression) <= max_arity
       /\ forallb (accepts declared) (children expression) = true)
  /\ (validate_unary_string expression = Ok tt
      <-> exists c, children expression = [c]
                    /\ accepts ReturnType.String c = true).
Proof.
  assert (H : forall lo hi d,
             validate_arity_and_any_type expression lo hi d = Ok tt
             <-> lo <= len (children expression) <= hi
                 /\ forallb (accepts d) (children expression) = true).
  { intros lo hi d. unfold validate_arity_and_any_type.
    destruct (Z.ltb_spec (len (children expression)) lo);
      [split; [discriminate | lia] |].
    destruct (Z.gtb_spec (len (children expression)) hi);
      [split; [discriminate | lia] |].
    destruct (Z.eqb_spec (Z.land d ReturnType.Object) 0) as [Hd | Hd].
    - rewrite (validate_any_type_accepts expression d _ Hd).
      split; [intros Hf; split; [lia | exact Hf] | intros [_ Hf]; exact Hf].
    - split; [intros _; split; [lia | apply forallb_accepts_Object, Hd]
             | reflexivity]. }
  split; [apply H |].
  unfold validate_unary_string. rewrite H. unfold len.
  destruct (children expression) as [| c [| c' cs]]; simpl.
  - split; [lia | intros (c & Hc & _); discriminate Hc].
  - rewrite andb_true_r. split.
    + intros [_ Hc]. exists c. split; [reflexivity | exact Hc].
    + intros (c' & [= <-] & Hc). split; [lia | exact Hc].
  - split; [lia | intros (c0 & Hc & _); discriminate Hc].
Qed.

Lemma validate_child_accepts
    (expression : Expression) (child_type : Z) (c : Expression) :
  validate_child expression child_type c = Ok tt
  <-> accepts child_type c = true.
Proof.
  unfold validate_child, accepts.
  destruct (Z.land child_type ReturnType.Object =? 0);
    destruct (Z.land (return_type c) ReturnType.Object =? 0);
    destruct (Z.land child_type (return_type c) =? 0); simpl;
    split; try reflexivity; discriminate.
Qed.

Lemma validate_required_accepts
    (expression : Expression) (types : list Z) (i : nat) :
  (i + List.length types <= List.length (children expression))%nat ->
  (validate_required expression types i = Ok tt
   <-> forallb (fun tc => accepts (fst tc) (snd tc))
         (combine types (skipn i (children expression))) = true).
Proof.
  revert i. induction types as [| t types IH]; intros i Hlen; simpl;
    [split; reflexivity |].
  unfold child.
  destruct (nth_error (children expression) i) as [c |] eqn:Hc;
    [| apply nth_error_None in Hc; simpl in Hlen; lia].
  pose proof (nth_error_split _ _ Hc) as (l1 & l2 & Hs & Hl).
  assert (Hk : skipn i (children expression) = c :: l2).
  { rewrite Hs, <- Hl. clear. induction l1; simpl; auto. }
  assert (Hk' : skipn (S i) (children expression) = l2).
  { rewrite Hs, <- Hl. clear. induction l1; simpl; auto. }
  rewrite Hk. simpl.
  destruct (validate_child expression t c) as [[] | e] eqn:Hv; simpl.
  - apply (proj1 (validate_child_accepts expression t c)) in Hv.
    rewrite Hv. simpl.
    rewrite <- Hk'. apply IH. simpl in Hlen. lia.
  - assert (Ha : accepts t c = false).
    { destruct (accepts t c) eqn:Ha; [| reflexivity].
      apply (proj2 (validate_child_accepts expression t c)) in Ha.
      rewrite Ha in Hv. discriminate. }
    rewrite Ha. simpl. split; discriminate.
Qed.

Lemma skipn_nth_error (A : Type) (l : list A) (i : nat) :
  match nth_error l i with
  | Some c => skipn i l = c :: skipn (S i) l
  | None => skipn i l = []
  end.
Proof.
  revert i. induction l as [| a l IH]; intros [| i]; simpl; auto.
  apply IH.
Qed.

Lemma validate_optional_accepts
    (expression : Expression) (optional : list Z) (i : nat) :
  validate_optional expression optional i = Ok tt
  <-> forallb (fun tc => accepts (fst tc) (snd tc))
        (combine optional (skipn i (children expression))) = true.
Proof.
  revert i. induction optional as [| t optional IH]; intros i; simpl;
    [split; reflexivity |].
  pose proof (skipn_nth_error _ (children expression) i) as Hk.
  destruct (nth_error (children expression) i) as [c |]; rewrite Hk;
    [| split; reflexivity].
  simpl.
  destruct (validate_child expression t c) as [[] | e] eqn:Hv; simpl.
  - apply (proj1 (validate_child_accepts expression t c)) in Hv.
    rewrite Hv. simpl. apply IH.
  - assert (Ha : accepts t c = false).
    { destruct (accepts t c) eqn:Ha; [| reflexivity].
      apply (proj2 (validate_child_accepts expression t c)) in Ha.
      rewrite Ha in Hv. discriminate. }
    rewrite Ha. simpl. split; discriminate.
Qed.

Lemma combine_app_skipn (A B : Type) (l1 l2 : list A) (l : list B) :
  (List.length l1 <= List.length l)%nat ->
  combine (l1 ++ l2) l
  = (combine l1 l ++ combine l2 (skipn (List.length l1) l))%list.
Proof.
  revert l. induction l1 as [| a l1 IH]; intros [| b l] Hlen; simpl in *;
    try reflexivity; try lia.
  rewrite IH by lia. reflexivity.
Qed.

(** [validate_order] accepts a node exactly when the number of its children
    is between the number of required types and that number plus the number
    of optional ones, and each child fits the type of its position, the
    required types first; [FormatTicks.validator] accepts exactly the nodes
    with a child that fits [Number], alone or followed by one that fits
    [String]. *)
Theorem validate_order_accepts
    (expression : Expression) (optional : option (list Z)) (types : list Z) :
  let signature :=
    (types ++ match optional with None => [] | Some o => o end)%list in
  (validate_order expression optional types = Ok tt
   <-> len types <= len (children expression) <= len signature
       /\ forallb (fun tc => accepts (fst tc) (snd tc))
            (combine signature (children expression)) = true)
  /\ (FormatTicks_validator expression = Ok tt
      <-> (exists c, children expression = [c]
                     /\ accepts ReturnType.Number c = true)
          \/ (exists c f, children expression = [c; f]
                          /\ accepts ReturnType.Number c = true
                          /\ accepts ReturnType.String f = true)).
Proof.
  assert (H : forall opt tys,
             validate_order expression opt tys = Ok tt
             <-> len tys <= len (children expression)
                 <= len (tys ++ match opt with None => [] | Some o => o end)%list
                 /\ forallb (fun tc => accepts (fst tc) (snd tc))
                      (combine
                         (tys ++ match opt with None => [] | Some o => o end)%list
                         (children expression)) = true).
  { intros opt tys. unfold validate_order.
    set (o := match opt with None => [] | Some o => o end).
    assert (Hl : len (tys ++ o)%list = len tys + len o)
      by (unfold len; rewrite length_app; lia).
    rewrite Hl.
    destruct (Z.ltb_spec (len (children expression)) (len tys)); simpl.
    { destruct (len o =? 0); (split; [discriminate | lia]). }
    destruct (Z.gtb_spec (len (children expression)) (len tys + len o)); simpl.
    { destruct (len o =? 0); (split; [discriminate | lia]). }
    assert (Hn : (List.length tys <= List.length (children expression))%nat)
      by (unfold len in *; lia).
    rewrite (combine_app_skipn _ _ tys o (children expression) Hn),
      forallb_app.
    pose proof (validate_required_accepts expression tys 0) as Hr.
    simpl in Hr.
    pose proof (validate_optional_accepts expression o (List.length tys)) as Ho.
    destruct (validate_required expression tys 0) as [[] | e]; simpl.
    - rewrite (proj1 (Hr Hn) eq_refl). simpl. rewrite Ho.
      split; [intros Hf; split; [lia | exact Hf] | intros [_ Hf]; exact Hf].
    - split; [discriminate |]. intros [_ Hf].
      apply andb_true_iff in Hf as [Hf _].
      apply (proj2 (Hr Hn)) in Hf. discriminate. }
  split; [apply H |].
  unfold FormatTicks_validator. rewrite H. unfold len. simpl.
  destruct (children expression) as [| c [| f [| g cs]]]; simpl.
  - split; [lia |]. intros [(c & Hc & _) | (c & f & Hc & _)]; discriminate.
  - rewrite andb_true_r. split.
    + intros [_ Hc]. left. exists c. split; [reflexivity | exact Hc].
    + intros [(c' & [= <-] & Hc) | (c' & f & Hc & _)];
        [split; [lia | exact Hc] | discriminate].
  - rewrite andb_true_r. split.
    + intros [_ Hc]. apply andb_true_iff in Hc as [Hc Hf].
      right. exists c, f. repeat split; assumption.
    + intros [(c' & Hc & _) | (c' & f' & [= <- <-] & Hc & Hf)];
        [discriminate |].
      split; [lia | apply andb_true_iff; split; assumption].
  - split; [lia |]. intros [(c' & Hc & _) | (c' & f' & Hc & _)]; discriminate.
Qed.

(** *** Child evaluation *)

Lemma evaluate_loop_length
    (cs : list Expression) (state : stack) (options : Options)
    (verify : option VerifyExpression)
    (args0 : list value) (error0 : option str) (pos : Z)
    (args : list value) (error : option str) (state' : stack) :
  truthy error0 = false ->
  evaluate_loop cs state options verify args0 error0 pos
  = (Ok (args, error), state') ->
  (truthy error = false ->
   List.length args = (List.length args0 + List.length cs)%nat)
  /\ (truthy error = true ->
      (List.length args0 <= List.length args
       < List.length args0 + List.length cs)%nat).
Proof.
  revert state args0 error0 pos.
  induction cs as [| c cs IH]; intros state args0 error0 pos H0; simpl.
  - intros [= <- <- <-]. split; intros H; [simpl; lia | congruence].
  - destruct (try_evaluate c state options) as [[[v e] | x] st1];
      [| discriminate].
    destruct (truthy e) eqn:Te.
    { intros [= <- <- <-]. split; intros H; [congruence | simpl; lia]. }
    destruct (match verify with Some vf => vf v c pos | None => Ok e end)
      as [e' | x]; [| discriminate].
    destruct (truthy e') eqn:Te'.
    { intros [= <- <- <-]. split; intros H; [congruence | simpl; lia]. }
    intros H. apply IH in H; [| exact Te'].
    rewrite length_app in H. simpl in H. destruct H as [H1 H2].
    split; intros H; [apply H1 in H | apply H2 in H]; simpl; lia.
Qed.

(** When [evaluate_children] returns without an error, it returns one
    argument for each child of the node, in particular when [apply] calls its
    function; when it returns an error, it returns fewer. *)
Theorem evaluate_children_length
    (expression : Expression) (state : stack) (options : Options)
    (verify : option VerifyExpression)
    (args : list value) (error : option str) (state' : stack) :
  evaluate_children expression state options verify
  = (Ok (args, error), state') ->
  (error = None -> List.length args = List.length (children expression))
  /\ (truthy error = false ->
      List.length args = List.length (children expression))
  /\ (truthy error = true ->
      (List.length args < List.length (children expression))%nat).
Proof.
  unfold evaluate_children. intros H.
  apply evaluate_loop_length in H; [| reflexivity].
  simpl in H. destruct H as [H1 H2].
  split; [intros ->; apply H1; reflexivity |].
  split; [exact H1 |].
  intros H. apply H2 in H. lia.
Qed.

Lemma evaluate_loop_app
    (pre rest : list Expression) (state : stack) (options : Options)
    (verify : option VerifyExpression)
    (args0 : list value) (error0 : option str) (pos : Z)
    (args : list value) (error : option str) (state1 : stack) :
  evaluate_loop pre state options verify args0 error0 pos
  = (Ok (args, error), state1) ->
  truthy error = false ->
  rest <> [] ->
  evaluate_loop (pre ++ rest) state options verify args0 error0 pos
  = evaluate_loop rest state1 options verify args error (pos + len pre).
Proof.
  revert state args0 error0 pos.
  induction pre as [| c pre IH]; intros state args0 error0 pos; simpl.
  - intros [= <- <- <-] _ Hrest. unfold len. simpl. rewrite Z.add_0_r.
    destruct rest as [| r rest]; [contradiction | reflexivity].
  - destruct (try_evaluate c state options) as [[[v e] | x] st1];
      [| discriminate].
    destruct (truthy e) eqn:Te.
    { intros [= <- <- <-] Hf. congruence. }
    destruct (match verify with Some vf => vf v c pos | None => Ok e end)
      as [e' | x]; [| discriminate].
    destruct (truthy e') eqn:Te'.
    { intros [= <- <- <-] Hf. congruence. }
    intros H Hf Hrest. rewrite (IH _ _ _ _ H Hf Hrest).
    f_equal. unfold len. simpl List.length. lia.
Qed.

(** [evaluate_children] stops at the first child that fails.  When the
    children before [c] evaluate and verify without error, and [c] evaluates
    to an error or its value fails the verifier, the result is the values of
    the children before [c] with that error, and the memory is as [c] left
    it, whatever children follow. *)
Theorem evaluate_children_short_circuit
    (expression : Expression) (pre post : list Expression) (c : Expression)
    (state state1 state2 : stack) (options : Options)
    (verify : option VerifyExpression)
    (args : list value) (error0 : option str)
    (v : value) (e : option str) :
  children expression = (pre ++ c :: post)%list ->
  evaluate_loop pre state options verify [] None 0
  = (Ok (args, error0), state1) ->
  truthy error0 = false ->
  try_evaluate c state1 options = (Ok (v, e), state2) ->
  (truthy e = true ->
   evaluate_children expression state options verify
   = (Ok (args, e), state2))
  /\ (forall vf e',
        truthy e = false ->
        verify = Some vf ->
        vf v c (len pre) = Ok e' ->
        truthy e' = true ->
        evaluate_children expression state options verify
        = (Ok (args, e'), state2)).
Proof.
  intros Hc Hpre Hf He. unfold evaluate_children. rewrite Hc.
  rewrite (evaluate_loop_app pre (c :: post) _ _ _ _ _ _ _ _ _ Hpre Hf)
    by discriminate.
  simpl. rewrite He. split.
  - intros ->. reflexivity.
  - intros vf e' -> -> Hv He'. rewrite Hv, He'. reflexivity.
Qed.

(** *** Verifiers *)

Lemma verify_elements_numbers (elts : list value) (expression : Expression) :
  (forallb isinstance_Number elts = true ->
   verify_elements elts expression = Ok None)
  /\ (forallb isinstance_Number elts = false ->
      exists msg, verify_elements elts expression = Raise (TypeError msg)).
Proof.
  induction elts as [| elt elts [IH1 IH2]]; simpl.
  - split; [reflexivity | discriminate].
  - destruct (isinstance_Number elt) eqn:E; simpl; [split; assumption |].
    split; [discriminate |]. intros _.
    unfold not_a_number_in. destruct elt; simpl; eexists; reflexivity.
Qed.

(** On a list, [verify_numeric_list] and [verify_numeric_list_or_number]
    return no error when every element is a number and raise [TypeError]
    otherwise: the error of an element is never returned, its message being
    built by adding the node to a string. *)
Theorem verify_numeric_list_raises
    (elts : list value) (expression : Expression) (number : Z) :
  (forallb isinstance_Number elts = true ->
   verify_numeric_list (VList elts) expression number = Ok None
   /\ verify_numeric_list_or_number (VList elts) expression number = Ok None)
  /\ (forallb isinstance_Number elts = false ->
      (exists msg,
          verify_numeric_list (VList elts) expression number
          = Raise (TypeError msg))
      /\ (exists msg,
            verify_numeric_list_or_number (VList elts) expression number
            = Raise (TypeError msg))).
Proof.
  destruct (verify_elements_numbers elts expression) as [H1 H2].
  split; intros H; split; simpl; auto.
Qed.

(** The verifiers are nested: an integer is a number, and a number or a
    string is a number-or-string and is not null; a string is also a
    string-or-null, and a list of numbers is a list. *)
Theorem verifiers_nested (v : value) (expression : Expression) (number : Z) :
  (verify_integer v expression number = Ok None ->
   verify_number v expression number = Ok None)
  /\ (verify_number v expression number = Ok None ->
      verify_number_or_string v expression number = Ok None
      /\ verify_numeric_list_or_number v expression number = Ok None
      /\ verify_not_null v expression number = Ok None)
  /\ (verify_string v expression number = Ok None ->
      verify_number_or_string v expression number = Ok None
      /\ verify_number_or_string_or_null v expression number = Ok None
      /\ verify_string_or_null v expression number = Ok None
      /\ verify_not_null v expression number = Ok None)
  /\ (verify_numeric_list v expression number = Ok None ->
      verify_list v expression number = Ok None
      /\ verify_numeric_list_or_number v expression number = Ok None).
Proof.
  repeat split;
    destruct v as [| b | n | f | s | bs | items | items | items | entries | id];
    simpl in *; try reflexivity; try discriminate; try assumption.
Qed.

(** [verify_number_or_string] and [verify_number_or_string_or_null] agree
    on every value but the booleans and null: the first accepts a boolean
    and rejects null, the second rejects a boolean and accepts null. *)
Theorem verify_number_or_string_variants (expression : Expression) (number : Z) :
  (forall v, v <> VNone -> (forall b, v <> VBool b) ->
      (verify_number_or_string v expression number = Ok None
       <-> verify_number_or_string_or_null v expression number = Ok None))
  /\ (forall b,
        verify_number_or_string (VBool b) expression number = Ok None
        /\ verify_number_or_string_or_null (VBool b) expression number
           = Ok (Some (to_string expression ++ " is neither a number nor string.")))
  /\ verify_number_or_string VNone expression number
     = Ok (Some (to_string expression ++ " is not string or number"))
  /\ verify_number_or_string_or_null VNone expression number = Ok None.
Proof.
  repeat split; try reflexivity;
    destruct v as [| b | n | f | s | bs | items | items | items | entries | id];
    simpl; try reflexivity; try discriminate; try contradiction;
    try (exfalso; eapply H0; reflexivity).
Qed.

(** *** Integers *)

Lemma int_of_float_integer (f : float) :
  float_is_integer f = true -> exists n, int_of_float f = Ok n.
Proof.
  unfold float_is_integer, int_of_float.
  destruct (Prim2SF f); try discriminate; intros _; eexists; reflexivity.
Qed.

Lemma is_integer_py_int (obj : value) :
  is_integer obj = true -> exists n, py_int obj = Ok n.
Proof.
  destruct obj; simpl; try discriminate; try (intros _; eexists; reflexivity).
  unfold is_integer. simpl. apply int_of_float_integer.
Qed.

(** [parse_int] never raises.  On the values [verify_integer] accepts (the
    booleans, the integers and the floats without a fractional part) it
    returns [int(obj)] and no error; on every other value it returns [0]
    together with the error. *)
Theorem parse_int_spec (obj : value) (expression : Expression) (number : Z) :
  (is_integer obj = true ->
   exists n, py_int obj = Ok n /\ parse_int obj = Ok (n, None))
  /\ (is_integer obj = false ->
      parse_int obj = Ok (0, Some (py_str obj ++ " must be a integer.")))
  /\ (verify_integer obj expression number = Ok None
      <-> exists n, parse_int obj = Ok (n, None)).
Proof.
  unfold parse_int, verify_integer.
  destruct (is_integer obj) eqn:E; simpl.
  - destruct (is_integer_py_int obj E) as [n Hn]. rewrite Hn. simpl.
    split; [intros _; exists n; split; reflexivity |].
    split; [discriminate |].
    split; [intros _; exists n; reflexivity | reflexivity].
  - split; [discriminate |]. split; [reflexivity |].
    split; [discriminate | intros [n Hn]; discriminate Hn].
Qed.

(** *** Iteration over a collection that is not one *)

(** [foreach] does not return the error of a collection it cannot iterate:
    when the first child evaluates to null or to an error, and when it
    evaluates to a value that is neither a list, a set nor a mapping (the
    iterator name being a literal), the function raises
    [UnboundLocalError], the memory being as the first child left it. *)
Theorem foreach_unbound_result
    (expression collection : Expression) (state state' : stack)
    (options : Options) (instance : value) (error : option str) :
  child expression 0 = Ok collection ->
  try_evaluate collection state options = (Ok (instance, error), state') ->
  (instance = VNone \/ error <> None ->
   foreach expression state options = (Raise result_unbound, state'))
  /\ (forall iterator_name,
        iterator_name_of expression = Ok iterator_name ->
        elements_of instance = None ->
        foreach expression state options = (Raise result_unbound, state')).
Proof.
  intros Hc He. unfold foreach. rewrite Hc, He. split.
  - intros [-> | Herr]; [reflexivity |].
    destruct (is_none instance); [reflexivity |].
    destruct error; [reflexivity | contradiction].
  - intros iterator_name Hn Hel.
    destruct (is_none instance); [reflexivity |].
    destruct error; [reflexivity |].
    rewrite Hn, Hel. reflexivity.
Qed.

(** *** Sequenced reduction with errors *)

Lemma sequence_without_error
    (function : list value -> res value) (rest : list value) (so_far : value) :
  sequence_with_error (without_error function) rest so_far
  = without_error (fun _ => sequence function rest so_far) [].
Proof.
  revert so_far. induction rest as [| arg rest IH]; intros so_far; simpl;
    [reflexivity |].
  unfold without_error at 1. destruct (function [so_far; arg]); simpl;
    [apply IH | reflexivity].
Qed.

Lemma sequence_with_error_app
    (function : list value -> res (value * option str))
    (pre rest : list value) (so_far so_far' : value) :
  sequence_with_error function pre so_far = Ok (so_far', None) ->
  sequence_with_error function (pre ++ rest) so_far
  = sequence_with_error function rest so_far'.
Proof.
  revert so_far. induction pre as [| arg pre IH]; intros so_far; simpl.
  - intros [= ->]. reflexivity.
  - destruct (function [so_far; arg]) as [[v e] | x]; simpl; [| discriminate].
    destruct (truthy e) eqn:T; [| apply IH].
    intros [= -> ->]. discriminate T.
Qed.

(** [apply_sequence_with_error] over a function that never returns an error
    is [apply_sequence] over that function; and its fold ends at the first
    error: when the arguments before [arg] fold to [so_far] and the function
    returns an error on [so_far] and [arg], the evaluator returns the pair of
    that call, whatever arguments follow. *)
Theorem apply_sequence_with_error_fold
    (verify : option VerifyExpression)
    (expression : Expression) (state : stack) (options : Options) :
  (forall function,
      apply_sequence_with_error (without_error function) verify
        expression state options
      = apply_sequence function verify expression state options)
  /\ (forall function first pre arg post so_far value error state',
        evaluate_children expression state options verify
        = (Ok (first :: pre ++ arg :: post, None), state') ->
        sequence_with_error function pre first = Ok (so_far, None) ->
        function [so_far; arg] = Ok (value, error) ->
        truthy error = true ->
        apply_sequence_with_error function verify expression state options
        = (Ok (value, error), state')).
Proof.
  split.
  - intros function.
    unfold apply_sequence_with_error, apply_sequence, apply_with_error, apply.
    destruct (evaluate_children expression state options verify)
      as [[[args [e |]] | x] st]; try reflexivity.
    destruct args as [| so_far rest]; simpl; [reflexivity |].
    rewrite sequence_without_error. unfold without_error.
    destruct (sequence function rest so_far); reflexivity.
  - intros function first pre arg post so_far value error state' Hc Hp Hf Ht.
    unfold apply_sequence_with_error, apply_with_error. rewrite Hc.
    rewrite (sequence_with_error_app function pre (arg :: post) first so_far Hp).
    simpl. rewrite Hf. simpl. rewrite Ht. reflexivity.
Qed.

(** *** Data URIs of any node *)

Lemma evaluate_children_first_raises
    (expression c : Expression) (rest : list Expression)
    (state state' : stack) (options : Options)
    (verify : option VerifyExpression) (e : exn) :
  children expression = c :: rest ->
  try_evaluate c state options = (Raise e, state') ->
  evaluate_children expression state options verify = (Raise e, state').
Proof.
  intros Hc He. unfold evaluate_children. rewrite Hc. simpl.
  rewrite He. reflexivity.
Qed.

Lemma evaluate_loop_strings
    (cs : list Expression) (state : stack) (options : Options)
    (args0 : list value) (error0 : option str) (pos : Z) :
  Forall (returns options) cs ->
  Forall (fun a => isinstance_str a = true) args0 ->
  exists args error state',
    evaluate_loop cs state options (Some verify_string) args0 error0 pos
    = (Ok (args, error), state')
    /\ Forall (fun a => isinstance_str a = true) args.
Proof.
  intros Hcs. revert state args0 error0 pos.
  induction Hcs as [| c cs Hc _ IH]; intros state args0 error0 pos H0; simpl.
  - exists args0, error0, state. split; [reflexivity | exact H0].
  - destruct (Hc state) as [[v e] Hr].
    destruct (try_evaluate c state options) as [r st1].
    simpl in Hr. subst r.
    destruct (truthy e).
    { exists args0, e, st1. split; [reflexivity | exact H0]. }
    unfold verify_string at 1.
    destruct (isinstance_str v) eqn:Hs; simpl.
    + apply IH. apply Forall_app. split; [exact H0 |].
      constructor; [exact Hs | constructor].
    + destruct (to_string c); simpl;
        eexists _, _, st1; (split; [reflexivity | exact H0]).
Qed.

(** On every node whose children's evaluations return, in every memory,
    the evaluator of [dataUri] returns a pair: an error with no value, or
    the data URI of a string without surrogates with no error, a node
    without children giving the error of the missing argument.  When the
    first child raises, the evaluator raises: the children are evaluated
    outside the [try] of [apply].  Two strings of code points, without
    surrogates, that have the same data URI are the same string. *)
Theorem DataUri_evaluator_total
    (expression : Expression) (state : stack) (options : Options) :
  (Forall (returns options) (children expression) ->
   exists value error state',
      DataUri_evaluator expression state options
      = (Ok (value, error), state')
      /\ (error <> None -> value = VNone)
      /\ (error = None ->
          exists s,
            has_surrogate s = false
            /\ value = VStr ("data:text/plain;charset=utf-8;base64,"
                             ++ b64encode (utf8_bytes s))))
  /\ (forall c rest state' e,
        children expression = c :: rest ->
        try_evaluate c state options = (Raise e, state') ->
        DataUri_evaluator expression state options = (Raise e, state'))
  /\ (children expression = [] ->
      DataUri_evaluator expression state options
      = (Ok (VNone, Some "list index out of range"), state))
  /\ (forall s t,
        code_points s = true ->
        code_points t = true ->
        has_surrogate s = false ->
        data_uri_function [VStr s] = data_uri_function [VStr t] -> s = t).
Proof.
  split; [| split; [| split]].
  - intros Hcs. unfold DataUri_evaluator, apply, evaluate_children.
    destruct (evaluate_loop_strings (children expression) state options
                [] None 0 Hcs (Forall_nil _))
      as (args & error & state' & -> & Hargs).
    destruct error as [e |].
    + exists VNone, (Some e), state'.
      split; [reflexivity |]. split; [reflexivity | discriminate].
    + destruct args as [| a args]; simpl.
      * exists VNone, (Some "list index out of range"), state'.
        split; [reflexivity |]. split; [reflexivity | discriminate].
      * inversion Hargs as [| ? ? Ha _]; subst.
        destruct a; try discriminate Ha. cbn [py_str].
        destruct (has_surrogate s) eqn:Hs.
        -- destruct (utf8_encode_raises s Hs) as [msg ->]. simpl.
           exists VNone, (Some msg), state'.
           split; [reflexivity |]. split; [reflexivity | discriminate].
        -- rewrite (utf8_encode_bytes s Hs). simpl.
           eexists _, None, state'.
           split; [reflexivity |]. split; [intros H; contradiction |].
           intros _. exists s. split; [exact Hs | reflexivity].
  - intros c rest state' e Hc He. unfold DataUri_evaluator, apply.
    rewrite (evaluate_children_first_raises expression c rest state state'
               options (Some verify_string) e Hc He).
    reflexivity.
  - intros Hc. unfold DataUri_evaluator, apply, evaluate_children.
    rewrite Hc. reflexivity.
  - intros s t Hcs Hct Hs H. unfold data_uri_function in H. cbn [py_str] in H.
    rewrite (utf8_encode_bytes s Hs) in H. simpl in H.
    destruct (has_surrogate t) eqn:Ht.
    { destruct (utf8_encode_raises t Ht) as [msg E]. rewrite E in H.
      discriminate H. }
    rewrite (utf8_encode_bytes t Ht) in H. simpl in H.
    injection H as H.
    assert (Hb : b64decode (b64encode (utf8_bytes s))
                 = b64decode (b64encode (utf8_bytes t))) by (rewrite H; reflexivity).
    rewrite !b64_roundtrip in Hb. injection Hb as Hb.
    assert (Hu : utf8_decode (utf8_bytes s) = utf8_decode (utf8_bytes t))
      by (rewrite Hb; reflexivity).
    rewrite !utf8_roundtrip in Hu by assumption. injection Hu as Hu. exact Hu.
Qed.

(** *** Ticks *)

Lemma format_ticks_function_exclusive :
  exclusive_function format_ticks_function.
Proof.
  intros [| timestamp args] value error; unfold format_ticks_function;
    [discriminate |].
  destruct (isinstance_int timestamp); [| intros [= <- _]; reflexivity].
  destruct (py_int timestamp) as [ticks |]; cbn [bind]; [| discriminate].
  destruct (ticks_to_seconds ticks) as [seconds |]; cbn [bind];
    [| discriminate].
  destruct (fromtimestamp_utc seconds) as [date_time |]; cbn [bind];
    [| discriminate].
  destruct (len (timestamp :: args) =? 2);
    match goal with
    | |- context [FormatDatetime_format ?d ?f] =>
        destruct (FormatDatetime_format d f); cbn [bind]; discriminate
    end.
Qed.

(** The evaluator of [formatTicks] never returns both a value and an
    error; on a node whose children's evaluations return it returns a pair,
    an exception of the conversion or of the formatting becoming the error,
    and when the first child raises it raises: the children are evaluated
    outside the [try] of [apply_with_error].  A first argument that is not
    an [int] (a float, even a whole one) gives the error that it is not a
    number. *)
Theorem FormatTicks_value_or_error
    (expression : Expression) (state : stack) (options : Options) :
  exclusive (FormatTicks_evaluator expression state options)
  /\ (Forall (returns options) (children expression) ->
      exists r, fst (FormatTicks_evaluator expression state options) = Ok r)
  /\ (forall c rest state' e,
        children expression = c :: rest ->
        try_evaluate c state options = (Raise e, state') ->
        FormatTicks_evaluator expression state options = (Raise e, state'))
  /\ (forall timestamp rest state',
        evaluate_children expression state options None
        = (Ok (timestamp :: rest, None), state') ->
        isinstance_int timestamp = false ->
        FormatTicks_evaluator expression state options
        = (Ok (VNone, Some ("formatTicks first argument {"
                            ++ py_str timestamp ++ "} is not a number")),
           state')).
Proof.
  split; [| split; [| split]].
  - apply apply_with_error_exclusive, format_ticks_function_exclusive.
  - intros Hcs. unfold FormatTicks_evaluator, apply_with_error.
    destruct (evaluate_loop_returns (children expression) state options None
                [] None 0 I Hcs) as [[args error] Hr].
    unfold evaluate_children.
    destruct (evaluate_loop (children expression) state options None [] None 0)
      as [r st]. simpl in Hr. subst r.
    destruct error; [eexists; reflexivity |].
    destruct (format_ticks_function args) as [[] |]; eexists; reflexivity.
  - intros c rest state' e Hc He. unfold FormatTicks_evaluator, apply_with_error.
    rewrite (evaluate_children_first_raises expression c rest state state'
               options None e Hc He).
    reflexivity.
  - intros timestamp rest state' Hc Hi.
    unfold FormatTicks_evaluator, apply_with_error. rewrite Hc. simpl.
    rewrite Hi. reflexivity.
Qed.

(** *** The port of a URI *)

Lemma evaluate_children_unary
    (expression c : Expression) (state state' : stack) (options : Options)
    (v : value) (e : option str) :
  children expression = [c] ->
  try_evaluate c state options = (Ok (v, e), state') ->
  evaluate_children expression state options None
  = (Ok (if truthy e then [] else [v], e), state').
Proof.
  intros Hc He. unfold evaluate_children. rewrite Hc. simpl. rewrite He.
  destruct (truthy e) eqn:T; reflexivity.
Qed.

(** On a node with one child, the evaluator of [uriPort] hands on the error
    of the child with no value; for a value that is not a string it returns
    the error that it should be one; for a string that the library parses it
    returns the port, with no error when the URI has a network location and
    with the error that the URI is not absolute when it has none. *)
Theorem UriPort_evaluator_spec
    (expression c : Expression) (state state' : stack) (options : Options)
    (v : value) (e : option str) :
  children expression = [c] ->
  try_evaluate c state options = (Ok (v, e), state') ->
  (e <> None ->
   UriPort_evaluator expression state options = (Ok (VNone, e), state'))
  /\ (e = None ->
      isinstance_str v = false ->
      UriPort_evaluator expression state options
      = (Ok (VNone, Some (py_str v ++ " should be a string.")), state'))
  /\ (forall uri parsed p,
        e = None ->
        v = VStr uri ->
        urlparse uri = Ok parsed ->
        port parsed = Ok p ->
        let value := match p with Some n => VInt n | None => VNone end in
        (netloc parsed <> EmptyStr ->
         UriPort_evaluator expression state options
         = (Ok (value, None), state'))
        /\ (netloc parsed = EmptyStr ->
            UriPort_evaluator expression state options
            = (Ok (value,
                   Some "invalid operation, input uri should be an absolute URI"),
               state'))).
Proof.
  intros Hc He. unfold UriPort_evaluator.
  rewrite (evaluate_children_unary expression c state state' options v e Hc He).
  split; [| split].
  - intros Hn. destruct e as [e |]; [reflexivity | contradiction].
  - intros -> Hs. simpl. destruct v; try reflexivity. discriminate Hs.
  - intros uri parsed p -> -> Hu Hp. simpl. rewrite Hu, Hp.
    split; intros Hn.
    + destruct (str_eqb_spec (netloc parsed) EmptyStr);
        [contradiction | reflexivity].
    + rewrite Hn. reflexivity.
Qed.

(** *** Paths *)

(** An error of a subscript ends the walk of [try_accumulate_path]: when the
    walk reaches an element whose subscript evaluates to an error, that
    error is returned with no path and no residual, the memory being as the
    subscript left it. *)
Theorem try_accumulate_path_subscript_error
    (expression : Expression) (state : stack) (options : Options)
    (left : Expression) (path : str) (state1 state2 : stack)
    (container index : Expression) (rest : list Expression)
    (v : value) (e : str) :
  walks options expression EmptyStr state left path state1 ->
  expr_type left = ELEMENT ->
  children left = container :: index :: rest ->
  try_evaluate index state1 options = (Ok (v, Some e), state2) ->
  try_accumulate_path expression state options
  = (Ok (None, None, Some e), state2).
Proof.
  intros Hw Ht Hc He. unfold try_accumulate_path.
  rewrite (walks_accumulate options expression EmptyStr state
             left path state1 Hw).
  destruct left as [type cs rt k]; simpl in Ht, Hc; subst type cs; simpl.
  rewrite He. reflexivity.
Qed.

Lemma append_assoc (a b c : str) : (a ++ b) ++ c = a ++ (b ++ c).
Proof. induction a as [| x a IH]; simpl; [| rewrite IH]; reflexivity. Qed.

Lemma accumulate_accessor_chain
    (first : str) (rest : list str) (path : str)
    (state : stack) (options : Options) :
  accumulate (accessor_chain first rest) path state options
  = (Ok (accumulated (dotted first rest ++ "." ++ path) None), state).
Proof.
  revert path. induction rest as [| name rest IH] using rev_ind; intros path.
  - reflexivity.
  - unfold accessor_chain, dotted in *. rewrite !fold_left_app. simpl.
    rewrite IH, !append_assoc. reflexivity.
Qed.

Lemma mem_char_app (c : N) (a b : str) :
  mem_char c (a ++ b) = mem_char c a || mem_char c b.
Proof.
  induction a as [| x a IH]; simpl; [reflexivity |].
  rewrite IH, orb_assoc. reflexivity.
Qed.

Lemma replace_dot_bracket_none (s : str) :
  mem_char (chr "[") s = false -> replace_dot_bracket s = s.
Proof.
  induction s as [| c s IH]; [reflexivity |].
  intros H. simpl in H. apply orb_false_iff in H as [Hc Hs].
  specialize (IH Hs). simpl. destruct s as [| d s]; [reflexivity |].
  simpl in Hs. apply orb_false_iff in Hs as [Hd _].
  rewrite Hd, andb_false_r. rewrite IH. reflexivity.
Qed.

Lemma rstrip_dot_plain (name : str) :
  plain name = true -> rstrip_dot (name ++ ".") = name.
Proof.
  unfold plain. intros H.
  apply andb_true_iff in H as [H _]. apply andb_true_iff in H as [Hne Hdot].
  apply negb_true_iff in Hdot.
  induction name as [| c name IH]; [discriminate Hne |].
  simpl in Hdot. apply orb_false_iff in Hdot as [Hc Hdot].
  simpl. destruct name as [| d name].
  - simpl. rewrite Hc. reflexivity.
  - rewrite IH by (reflexivity || exact Hdot). reflexivity.
Qed.

Lemma rstrip_dot_app (a b : str) :
  rstrip_dot b <> EmptyStr -> rstrip_dot (a ++ b) = a ++ rstrip_dot b.
Proof.
  intros Hb. induction a as [| c a IH]; [reflexivity |].
  simpl. rewrite IH.
  destruct (a ++ rstrip_dot b) as [| d r] eqn:E; [| reflexivity].
  exfalso. destruct a; simpl in E; [contradiction | discriminate].
Qed.

Lemma dotted_split (first : str) (rest : list str) :
  plain first = true ->
  forallb plain rest = true ->
  exists prefix name,
    dotted first rest = prefix ++ name
    /\ plain name = true
    /\ mem_char (chr "[") (dotted first rest) = false.
Proof.
  intros Hf Hr. induction rest as [| name rest IH] using rev_ind.
  - exists EmptyStr, first. split; [reflexivity |]. split; [exact Hf |].
    unfold plain in Hf. apply andb_true_iff in Hf as [_ Hb].
    apply negb_true_iff in Hb. exact Hb.
  - rewrite forallb_app in Hr. apply andb_true_iff in Hr as [Hr Hn].
    simpl in Hn. rewrite andb_true_r in Hn.
    destruct (IH Hr) as (_ & _ & _ & _ & Hb).
    unfold dotted in *. rewrite fold_left_app. cbn [fold_left].
    exists (fold_left (fun path n => path ++ "." ++ n) rest first ++ "."), name.
    split; [rewrite append_assoc; reflexivity |]. split; [exact Hn |].
    rewrite !mem_char_app, Hb. cbn [mem_char chr N.eqb Pos.eqb orb].
    unfold plain in Hn. apply andb_true_iff in Hn as [_ Hn].
    apply negb_true_iff in Hn. exact Hn.
Qed.

(** For the accessors of [first.n1.n2...], every name plain,
    [try_accumulate_path] returns the names joined by dots as the path, with
    no residual and no error, and leaves the memory as it is. *)
Theorem try_accumulate_path_accessors
    (first : str) (rest : list str) (state : stack) (options : Options) :
  plain first = true ->
  forallb plain rest = true ->
  try_accumulate_path (accessor_chain first rest) state options
  = (Ok (Some (dotted first rest), None, None), state).
Proof.
  intros Hf Hr. unfold try_accumulate_path.
  rewrite accumulate_accessor_chain. unfold accumulated.
  destruct (dotted_split first rest Hf Hr) as (prefix & name & Hd & Hn & Hb).
  assert (Hs : rstrip_dot (dotted first rest ++ "." ++ EmptyStr)
               = dotted first rest).
  { change ("." ++ EmptyStr) with ".".
    rewrite Hd, append_assoc, rstrip_dot_app; rewrite rstrip_dot_plain by exact Hn;
      [reflexivity |].
    unfold plain in Hn. destruct name; [discriminate Hn | discriminate]. }
  rewrite Hs, (replace_dot_bracket_none _ Hb).
  destruct (str_eqb_spec (dotted first rest) EmptyStr) as [E | _];
    [| reflexivity].
  exfalso. rewrite Hd in E. unfold plain in Hn.
  destruct prefix, name; simpl in E; discriminate.
Qed.

(** *** Properties of objects *)

Lemma lookup_In (k : str) (d : list (str * value)) (v : value) :
  lookup k d = Some v -> In (k, v) d.
Proof.
  induction d as [| [k' v'] d IH]; simpl; [discriminate |].
  destruct (str_eqb_spec k k') as [-> | Hne].
  - intros [= ->]. left. reflexivity.
  - intros H. right. apply IH, H.
Qed.

Lemma lookup_None (k : str) (d : list (str * value)) :
  lookup k d = None <-> ~ In k (keys d).
Proof.
  unfold keys. induction d as [| [k' v'] d IH]; simpl;
    [split; [intros _ [] | reflexivity] |].
  destruct (str_eqb_spec k k') as [-> | Hne].
  - split; [discriminate | intros H; exfalso; apply H; left; reflexivity].
  - rewrite IH. split.
    + intros H [E | Hin]; [congruence | exact (H Hin)].
    + intros H Hin. apply H. right. exact Hin.
Qed.

Lemma In_keys (k : str) (d : list (str * value)) :
  In k (keys d) <-> exists v, In (k, v) d.
Proof.
  unfold keys. rewrite in_map_iff. split.
  - intros ([k' v] & <- & Hin). exists v. exact Hin.
  - intros [v Hin]. exists (k, v). split; [reflexivity | exact Hin].
Qed.

Lemma same_entry (d : list (str * value)) (k1 k2 : str) (v1 v2 : value) :
  NoDup (map lower (keys d)) ->
  In (k1, v1) d -> In (k2, v2) d -> lower k1 = lower k2 ->
  k1 = k2 /\ v1 = v2.
Proof.
  unfold keys. induction d as [| [k v] d IH]; simpl; [contradiction |].
  intros Hnd H1 H2 Hl. inversion Hnd as [| ? ? Hnot Hnd']; subst.
  assert (Hin : forall k' v', In (k', v') d -> In (lower k') (map lower (map fst d))).
  { intros k' v' Hk. apply in_map, in_map_iff. exists (k', v').
    split; [reflexivity | exact Hk]. }
  destruct H1 as [[= <- <-] | H1], H2 as [[= <- <-] | H2].
  - split; reflexivity.
  - exfalso. apply Hnot. rewrite Hl. eapply Hin, H2.
  - exfalso. apply Hnot. rewrite <- Hl. eapply Hin, H1.
  - apply IH; assumption.
Qed.

Lemma access_property_no_key
    (entries : list (str * value)) (property : str) :
  (forall k, In k (keys entries) -> lower k <> lower property) ->
  access_property (VDict entries) property = (VNone, None).
Proof.
  intros Hk. unfold access_property. simpl.
  assert (Hl : lookup property entries = None).
  { apply lookup_None. intros Hin. apply (Hk property Hin). reflexivity. }
  assert (Hg : dict_get entries property = VNone)
    by (unfold dict_get; rewrite Hl; reflexivity).
  rewrite Hg. simpl.
  destruct (filter _ _) as [| k prop] eqn:Hf; [reflexivity |].
  assert (Hin : In k (filter (fun x => str_eqb (lower x) (lower property))
                        (keys entries))) by (rewrite Hf; left; reflexivity).
  apply filter_In in Hin as [Hin Heq].
  apply str_eqb_eq in Heq. exfalso. apply (Hk k Hin Heq).
Qed.

(** Reading a property never gives an error.  The value is null for a null
    instance, for an instance that is not a mapping, and for a mapping none
    of whose keys is the property up to case. *)
Theorem access_property_null_safe (instance : value) (property : str) :
  snd (access_property instance property) = None
  /\ (isinstance_dict instance = false ->
      access_property instance property = (VNone, None))
  /\ (forall entries,
        instance = VDict entries ->
        (forall k, In k (keys entries) -> lower k <> lower property) ->
        access_property instance property = (VNone, None)).
Proof.
  split; [| split].
  - unfold access_property.
    destruct instance; simpl; try reflexivity.
    destruct (is_none (dict_get entries property)); [| reflexivity].
    destruct (filter _ _); reflexivity.
  - destruct instance; simpl; try reflexivity; discriminate.
  - intros entries -> Hk. apply access_property_no_key, Hk.
Qed.

(** In a mapping whose keys differ even up to case and whose values are not
    null, a property is read without regard to case: the value of the key
    that equals the property up to case is returned, and two properties that
    are equal up to case read the same. *)
Theorem access_property_case_insensitive
    (entries : list (str * value)) :
  NoDup (map lower (keys entries)) ->
  Forall (fun kv => snd kv <> VNone) entries ->
  (forall property k v,
      In (k, v) entries ->
      lower k = lower property ->
      access_property (VDict entries) property = (v, None))
  /\ (forall property property',
        lower property = lower property' ->
        access_property (VDict entries) property
        = access_property (VDict entries) property').
Proof.
  intros Hnd Hval.
  assert (H : forall property k v,
             In (k, v) entries -> lower k = lower property ->
             access_property (VDict entries) property = (v, None)).
  { intros property k v Hin Hl. unfold access_property. simpl.
    assert (Hv : is_none v = false).
    { rewrite Forall_forall in Hval. specialize (Hval (k, v) Hin). simpl in Hval.
      destruct v; try reflexivity. contradiction. }
    destruct (lookup property entries) as [w |] eqn:Hw.
    - assert (Hg : dict_get entries property = w)
        by (unfold dict_get; rewrite Hw; reflexivity).
      rewrite Hg.
      apply lookup_In in Hw.
      destruct (same_entry entries k property v w Hnd Hin Hw Hl) as [_ <-].
      rewrite Hv. reflexivity.
    - assert (Hg : dict_get entries property = VNone)
        by (unfold dict_get; rewrite Hw; reflexivity).
      rewrite Hg. simpl.
      destruct (filter _ _) as [| k' prop] eqn:Hf.
      + exfalso.
        assert (Hk : In k (filter (fun x => str_eqb (lower x) (lower property))
                             (keys entries))).
        { apply filter_In. split.
          - apply In_keys. exists v. exact Hin.
          - apply str_eqb_eq, Hl. }
        rewrite Hf in Hk. exact Hk.
      + assert (Hk : In k' (filter (fun x => str_eqb (lower x) (lower property))
                              (keys entries))) by (rewrite Hf; left; reflexivity).
        apply filter_In in Hk as [Hk Heq]. apply str_eqb_eq in Heq.
        apply In_keys in Hk as [v' Hk].
        destruct (same_entry entries k k' v v' Hnd Hin Hk
                    (eq_trans Hl (eq_sym Heq))) as [<- <-].
        unfold dict_get.
        destruct (lookup k entries) as [w |] eqn:Hw'.
        * apply lookup_In in Hw'.
          destruct (same_entry entries k k v w Hnd Hin Hw' eq_refl) as [_ <-].
          reflexivity.
        * exfalso. apply lookup_None in Hw'. apply Hw'.
          apply In_keys. exists v. exact Hin. }
  split; [exact H |].
  intros property property' Hl.
  destruct (in_dec str_dec (lower property) (map lower (keys entries)))
    as [Hin | Hnot].
  - apply in_map_iff in Hin as (k & Hk & Hin).
    apply In_keys in Hin as [v Hin].
    rewrite (H property k v Hin Hk).
    rewrite (H property' k v Hin (eq_trans Hk Hl)). reflexivity.
  - rewrite !access_property_no_key; [reflexivity | |];
      intros k Hk E; apply Hnot; apply in_map_iff; exists k;
      split; congruence.
Qed.

Lemma lookup_dict_set (d : list (str * value)) (k k' : str) (v : value) :
  lookup k' (dict_set d k v)
  = if str_eqb k' k then Some v else lookup k' d.
Proof.
  induction d as [| [k0 v0] d IH]; simpl.
  - destruct (str_eqb k' k); reflexivity.
  - destruct (str_eqb_spec k k0) as [-> | Hne]; simpl.
    + destruct (str_eqb k' k0); reflexivity.
    + destruct (str_eqb_spec k' k0) as [-> | Hne'].
      * destruct (str_eqb_spec k0 k); [congruence | reflexivity].
      * exact IH.
Qed.

Lemma keys_dict_set (d : list (str * value)) (k : str) (v : value) :
  keys (dict_set d k v)
  = if in_dec str_dec k (keys d) then keys d else (keys d ++ [k])%list.
Proof.
  unfold keys. induction d as [| [k0 v0] d IH]; simpl; [reflexivity |].
  destruct (str_eqb_spec k k0) as [-> | Hne]; simpl.
  - destruct (str_dec k0 k0); [reflexivity | contradiction].
  - rewrite IH. destruct (str_dec k0 k); [congruence |].
    destruct (in_dec str_dec k (map fst d)); reflexivity.
Qed.

(** Setting a property of a mapping to a value that is not null returns the
    value with no error, and the property then reads as that value; the
    other keys keep their values, and the keys keep their order, a new key
    coming last.  A null, a number, a string, a byte string, a list or a
    tuple as the instance raises [TypeError]. *)
Theorem set_property_access_property
    (entries : list (str * value)) (property : str) (val : value) :
  val <> VNone ->
  exists entries',
    set_property (VDict entries) property val
    = Ok ((val, None), VDict entries')
    /\ access_property (VDict entries') property = (val, None)
    /\ (forall k, k <> property -> dict_get entries' k = dict_get entries k)
    /\ keys entries'
       = (if in_dec str_dec property (keys entries)
          then keys entries else (keys entries ++ [property])%list)
    /\ (forall instance,
          isinstance_dict instance = false ->
          (forall id, instance <> VObject id) ->
          exists msg,
            set_property instance property val = Raise (TypeError msg)).
Proof.
  intros Hv. exists (dict_set entries property val).
  split; [reflexivity |]. split; [| split; [| split]].
  - unfold access_property, dict_get. simpl.
    rewrite lookup_dict_set, str_eqb_refl.
    destruct val; try reflexivity. contradiction.
  - intros k Hk. unfold dict_get. rewrite lookup_dict_set.
    destruct (str_eqb_spec k property); [contradiction | reflexivity].
  - apply keys_dict_set.
  - intros instance Hi _.
    destruct instance; simpl in *; try (eexists; reflexivity);
      discriminate.
Qed.

(** *** Time units *)

(** [date_time_converter] returns a converter and no error for the seven
    units, whatever their case, and no converter, with the error that names
    the unit as it was given, for any other; the error is printed.  The
    converter depends on the unit only up to case, and the converter into
    the past for an interval is the converter into the future for the
    opposite interval. *)
Theorem date_time_converter_spec
    (interval : Z) (time_unit : str) (is_past : bool) :
  (In (lower time_unit) time_units ->
   exists delta,
     date_time_converter interval time_unit is_past
     = ((Some delta, None), []))
  /\ (~ In (lower time_unit) time_units ->
      date_time_converter interval time_unit is_past
      = ((None, Some ("{" ++ time_unit ++ "} is not a valid time unit.")),
         ["{" ++ time_unit ++ "} is not a valid time unit."]))
  /\ (forall time_unit',
        lower time_unit = lower time_unit' ->
        fst (fst (date_time_converter interval time_unit is_past))
        = fst (fst (date_time_converter interval time_unit' is_past)))
  /\ fst (fst (date_time_converter interval time_unit true))
     = fst (fst (date_time_converter (- interval) time_unit false)).
Proof.
  unfold date_time_converter, time_units.
  split; [| split; [| split]].
  - intros H. simpl in H.
    repeat match goal with
    | |- context [str_eqb (lower time_unit) ?u] =>
        destruct (str_eqb_spec (lower time_unit) u);
          [eexists; reflexivity |]
    end.
    exfalso. repeat (destruct H as [H | H]; [congruence |]). exact H.
  - intros H. simpl in H.
    repeat match goal with
    | |- context [str_eqb (lower time_unit) ?u] =>
        destruct (str_eqb_spec (lower time_unit) u);
          [exfalso; apply H;
           match goal with E : lower time_unit = _ |- _ => rewrite E end;
           repeat (first [left; reflexivity | right]) |]
    end.
    reflexivity.
  - intros time_unit' <-.
    repeat match goal with
    | |- context [str_eqb (lower time_unit) ?u] =>
        destruct (str_eqb (lower time_unit) u); [reflexivity |]
    end.
    reflexivity.
  - repeat match goal with
    | |- context [str_eqb (lower time_unit) ?u] =>
        destruct (str_eqb (lower time_unit) u);
          [cbn [fst]; do 2 f_equal; lia |]
    end.
    reflexivity.
Qed.

(** *** Equality of values of different kinds *)

(** Equality does not convert between kinds: two strings are equal exactly
    when they are the same string, a number and a string are never equal,
    and an empty list and an empty mapping are not equal; a boolean is a
    number, equal to [1] when true and to [0] when false.  With no argument
    the result is false, and with one argument [IndexError] is raised. *)
Theorem is_equal_kinds :
  (forall s t, is_equal [VStr s; VStr t] = Ok true <-> s = t)
  /\ (forall a s,
        isinstance_Number a = true ->
        is_equal [a; VStr s] = Ok false /\ is_equal [VStr s; a] = Ok false)
  /\ is_equal [VList []; VDict []] = Ok false
  /\ is_equal [VDict []; VList []] = Ok false
  /\ (forall b, is_equal [VBool b; VInt (int_of_bool b)] = Ok true)
  /\ is_equal [] = Ok false
  /\ (forall a, exists msg, is_equal [a] = Raise (IndexError msg)).
Proof.
  split.
  { intros s t. simpl. split.
    - intros [= H]. apply str_eqb_eq, H.
    - intros ->. rewrite str_eqb_refl. reflexivity. }
  split.
  { intros a s Ha. destruct a; try discriminate Ha; split; reflexivity. }
  repeat split; try reflexivity.
  - intros [|]; vm_compute; reflexivity.
  - intros a. eexists. reflexivity.
Qed.

End Engine.

(** ** The properties on the closed instance *)

(** C1 is not what the code does: an evaluator built with
    [apply_with_error], and one built with [apply_sequence_with_error],
    returns both a value and an error when the function it wraps does. *)
Lemma apply_with_error_value_and_error :
  apply_with_error unit value evaluate_literal value_and_error None
    (node "f" []) [] tt
  = (Ok (VInt 1, Some "failed"), [])
  /\ apply_sequence_with_error unit value evaluate_literal value_and_error None
       (node "f" [literal (VInt 1); literal (VInt 2)]) [] tt
     = (Ok (VInt 1, Some "failed"), [])
  /\ ~ exclusive value
         (apply_with_error unit value evaluate_literal value_and_error None
            (node "f" []) [] tt)
  /\ ~ exclusive value
         (apply_sequence_with_error unit value evaluate_literal
            value_and_error None
            (node "f" [literal (VInt 1); literal (VInt 2)]) [] tt).
Proof.
  repeat split; intros H; unfold exclusive in H; simpl in H;
    assert (E : VInt 1 = VNone) by (apply H; discriminate); discriminate E.
Qed.

(** [integer_or_error] never returns a value with an error. *)
Lemma integer_or_error_exclusive : exclusive_function integer_or_error.
Proof.
  intros [| [] args] value error; simpl; intros [= <- _]; reflexivity.
Defined.

(** C1 on the literal nodes: the evaluators built over [integer_or_error]
    are exclusive. *)
Lemma apply_value_or_error_witness :
  exclusive_function integer_or_error
  /\ exclusive value
       (apply_with_error unit value evaluate_literal integer_or_error None
          (node "f" [literal (VStr "x")]) [] tt)
  /\ exclusive value
       (apply_sequence_with_error unit value evaluate_literal
          integer_or_error None
          (node "f" [literal (VInt 1); literal (VStr "x")]) [] tt).
Proof.
  split; [exact integer_or_error_exclusive |].
  split.
  - exact (proj1 (proj1 (proj2
      (apply_value_or_error unit value evaluate_literal None
         (node "f" [literal (VStr "x")]) [] tt))
      integer_or_error integer_or_error_exclusive)).
  - exact (proj2 (proj1 (proj2
      (apply_value_or_error unit value evaluate_literal None
         (node "f" [literal (VInt 1); literal (VStr "x")]) [] tt))
      integer_or_error integer_or_error_exclusive)).
Defined.

(** A literal evaluation leaves the memory as it is. *)
Lemma evaluate_literal_balanced (e : Expression) :
  balanced unit value evaluate_literal tt e.
Proof.
  intros state. unfold evaluate_literal. destruct (constant e); reflexivity.
Defined.

(** A literal evaluation returns. *)
Lemma evaluate_literal_returns (e : Expression) :
  returns unit value evaluate_literal tt e.
Proof.
  intros state. unfold evaluate_literal.
  destruct (constant e); eexists; reflexivity.
Defined.

(** C2 on the literal nodes: a [foreach] over two elements whose body
    returns an error leaves the one frame of the memory and returns that
    error. *)
Lemma foreach_stack_discipline_witness :
  validate_foreach node_name (foreach_node (node "f" [])) = Ok tt
  /\ Forall (balanced unit value evaluate_literal tt)
       (children (foreach_node (node "f" [])))
  /\ snd (foreach opaque_repr unit value (fun local => local) node_name
            evaluate_literal (foreach_node (node "f" [])) [VDict []] tt)
     = [VDict []]
  /\ fst (foreach opaque_repr unit value (fun local => local) node_name
            evaluate_literal (foreach_node (node "f" [])) [VDict []] tt)
     = Ok (VNone, Some "f is not a literal").
Proof.
  split; [reflexivity |].
  assert (H : Forall (balanced unit value evaluate_literal tt)
                (children (foreach_node (node "f" []))))
    by (repeat constructor; apply evaluate_literal_balanced).
  split; [exact H |].
  split; [| reflexivity].
  apply (proj1 (foreach_stack_discipline opaque_repr unit value
                  (fun local => local) node_name evaluate_literal
                  (foreach_node (node "f" [])) [VDict []] tt
                  eq_refl H)).
  intros body _. apply evaluate_literal_returns.
Defined.

(** C2 is not what the code does when a body raises.  The body
    [foreach(null, y, 7)] raises, as [foreach] does over a collection that
    is null; the [foreach] over [1] and [2] with that body, called on a
    stacked memory of two frames, raises in its first turn and leaves the
    frame of [x = 1] on that memory. *)
Lemma foreach_raising_body_keeps_frame :
  foreach opaque_repr unit value (fun local => local) node_name
    evaluate_literal foreach_null
    [VDict []; VDict []; VDict [("x", VInt 1)]] tt
  = (Raise result_unbound, [VDict []; VDict []; VDict [("x", VInt 1)]])
  /\ evaluate_nested foreach_null
       [VDict []; VDict []; VDict [("x", VInt 1)]] tt
     = (Raise result_unbound, [VDict []; VDict []; VDict [("x", VInt 1)]])
  /\ validate_foreach node_name (foreach_node foreach_null) = Ok tt
  /\ Forall (balanced unit value evaluate_nested tt)
       (children (foreach_node foreach_null))
  /\ foreach opaque_repr unit value (fun local => local) node_name
       evaluate_nested (foreach_node foreach_null) [VDict []; VDict []] tt
     = (Raise result_unbound, [VDict []; VDict []; VDict [("x", VInt 1)]])
  /\ snd (foreach opaque_repr unit value (fun local => local) node_name
            evaluate_nested (foreach_node foreach_null)
            [VDict []; VDict []] tt)
     <> [VDict []; VDict []].
Proof.
  split; [reflexivity |]. split; [reflexivity |]. split; [reflexivity |].
  split.
  { repeat constructor; intros state; unfold evaluate_nested, evaluate_literal;
      simpl; reflexivity. }
  split; [reflexivity | discriminate].
Qed.

(** C3 is not what the code does.  The integers [2^53 + 1] and [2^53] differ
    by one and are equal, their conversions to [float] being the same number;
    the floats [1e-08] and [5e-25] are less than [1e-8] apart and are not
    equal, their difference rounding to [1e-08]; and [2^1024] is not
    compared with itself, the conversion raising [OverflowError]. *)
Lemma is_equal_not_within_tolerance :
  (is_equal [VInt (2 ^ 53 + 1); VInt (2 ^ 53)] = Ok true
   /\ ~ (Qabs (exact (VInt (2 ^ 53 + 1)) - exact (VInt (2 ^ 53)))
         < 1 # 100000000)%Q)
  /\ (is_equal [VFloat 1e-8%float; VFloat 5e-25%float] = Ok false
      /\ (Qabs (exact (VFloat 1e-8%float) - exact (VFloat 5e-25%float))
          < 1 # 100000000)%Q)
  /\ is_equal [VInt (2 ^ 1024); VInt (2 ^ 1024)]
     = Raise (OverflowError "int too large to convert to float").
Proof.
  repeat split; try (vm_compute; reflexivity).
  vm_compute. intros H; discriminate H.
Qed.

(** C3 on numbers within the tolerance: [3] and [3.0], [0.1] and
    [0.100000001]. *)
Lemma is_equal_spec_witness :
  is_equal [VInt 3; VFloat 3%float] = Ok true
  /\ is_equal [VFloat 0.1%float; VFloat 0.100000001%float] = Ok true.
Proof.
  split.
  - exact (proj2 (proj2 (proj2 (proj2 (proj2 is_equal_spec)))
                    (VInt 3) (VFloat 3%float) 3%float 3%float
                    eq_refl eq_refl eq_refl eq_refl) eq_refl).
  - exact (proj2 (proj2 (proj2 (proj2 (proj2 is_equal_spec)))
                    (VFloat 0.1%float) (VFloat 0.100000001%float)
                    0.1%float 0.100000001%float
                    eq_refl eq_refl eq_refl eq_refl) eq_refl).
Defined.

(** C4 on [0] and on the string [False]. *)
Lemma is_logic_true_spec_witness :
  is_logic_true (VInt 0) = true /\ is_logic_true (VStr "False") = true.
Proof.
  split.
  - apply (proj1 (proj2 is_logic_true_spec) (VInt 0)); discriminate.
  - apply (proj1 (proj2 is_logic_true_spec) (VStr "False")); discriminate.
Defined.

(** C7 is not what the code does: on [json[1.5]], whose subscript evaluates
    without error to a float that is not an integer, [try_accumulate_path]
    returns no residual and no path; it raises, the node being read after
    [left] was set to [None]. *)
Lemma try_accumulate_path_float_subscript :
  evaluate_literal (literal (VFloat 1.5%float)) [] tt
  = (Ok (VFloat 1.5%float, None), [])
  /\ try_accumulate_path opaque_repr unit value evaluate_literal json_1_5 [] tt
     = (Raise (AttributeError "'NoneType' object has no attribute 'children'"),
        [])
  /\ ~ (exists path residual error,
           fst (try_accumulate_path opaque_repr unit value evaluate_literal
                  json_1_5 [] tt)
           = Ok (path, Some residual, error)).
Proof.
  repeat split.
  intros (path & residual & error & H). vm_compute in H. discriminate H.
Qed.

(** The walk over [json[2].b] reaches [json] with [[2].b.] collected. *)
Lemma json_2_b_walks :
  walks opaque_repr unit value evaluate_literal tt
    json_2_b EmptyStr [] (node "json" []) "[2].b." [].
Proof.
  eapply walks_accessor; [reflexivity | reflexivity | reflexivity |].
  eapply walks_index;
    [reflexivity | reflexivity | reflexivity | reflexivity | reflexivity |].
  apply walks_here.
Defined.

(** C7 on [json[2].b]: the residual is [json] and the path [[2].b]. *)
Lemma try_accumulate_path_residual_witness :
  try_accumulate_path opaque_repr unit value evaluate_literal json_2_b [] tt
  = (Ok (Some "[2].b", Some (node "json" []), None), []).
Proof.
  apply (proj1 (try_accumulate_path_residual opaque_repr unit value
                  evaluate_literal json_2_b [] tt
                  (node "json" []) "[2].b." [] json_2_b_walks));
    discriminate.
Defined.

(** C8 on the literal nodes: [add(1, 2, 3, 4)] is [10]. *)
Lemma apply_sequence_left_fold_witness :
  apply_sequence unit value evaluate_literal (binary add) None
    (node "add"
       [literal (VInt 1); literal (VInt 2); literal (VInt 3); literal (VInt 4)])
    [] tt
  = (Ok (VInt 10, None), []).
Proof.
  exact (proj2 (proj2 (proj2
           (apply_sequence_left_fold unit value evaluate_literal)))
           add None
           (node "add"
              [literal (VInt 1); literal (VInt 2); literal (VInt 3);
               literal (VInt 4)])
           [] tt (VInt 1) (VInt 2) [VInt 3; VInt 4] [] eq_refl).
Defined.

(** C9 is not what the code does for every string: the string of the one
    surrogate [0xD800] has no UTF-8 bytes, the encoding raises, and the
    evaluator returns the message of the exception as its error, with no
    data URI. *)
Lemma data_uri_lone_surrogate :
  data_uri_function opaque_repr [VStr lone_surrogate]
  = Raise (UnicodeEncodeError
             "'utf-8' codec can't encode character '\ud800' in position 0: surrogates not allowed")
  /\ DataUri_evaluator opaque_repr unit value node_name evaluate_literal
       (node "dataUri" [literal (VStr lone_surrogate)]) [] tt
     = (Ok (VNone,
            Some "'utf-8' codec can't encode character '\ud800' in position 0: surrogates not allowed"),
        [])
  /\ forall bytes,
       fst (DataUri_evaluator opaque_repr unit value node_name evaluate_literal
              (node "dataUri" [literal (VStr lone_surrogate)]) [] tt)
       <> Ok (VStr ("data:text/plain;charset=utf-8;base64,"
                    ++ b64encode bytes), None).
Proof.
  split; [reflexivity |]. split; [reflexivity |].
  intros bytes H. vm_compute in H. discriminate H.
Qed.

(** C9 on the literal nodes: [dataUri] of the literal [hello]. *)
Lemma data_uri_spec_witness :
  DataUri_evaluator opaque_repr unit value node_name evaluate_literal
    (node "dataUri" [literal (VStr "hello")]) [] tt
  = (Ok (VStr "data:text/plain;charset=utf-8;base64,aGVsbG8=", None), []).
Proof.
  exact (proj1 (proj1 (proj2 (proj2 (proj2
                  (data_uri_spec opaque_repr unit value node_name
                     evaluate_literal))))
           (node "dataUri" [literal (VStr "hello")]) (literal (VStr "hello"))
           [] [] tt "hello" eq_refl eq_refl) eq_refl).
Defined.

(** C10 on [length(add())]: a number where a string is declared is reported
    as not an [Array] expression. *)
Lemma type_mismatch_names_Array_witness :
  validate_arity_and_any_type node_name length_of_number 1 1 ReturnType.String
  = Raise (Exception "{add} is not a {Array} expression in {length}.")
  /\ exists c,
      In c (children length_of_number)
      /\ Exception "{add} is not a {Array} expression in {length}."
         = Exception (not_an_Array node_name c length_of_number).
Proof.
  split; [reflexivity |].
  apply (proj1 (proj2 (proj2 (type_mismatch_names_Array node_name)))
           length_of_number 1 1 ReturnType.String).
  - unfold len; simpl; lia.
  - reflexivity.
Defined.

(** ** More properties on the closed instance *)

(** The arguments of a node with two literal children are two. *)
Lemma evaluate_children_length_witness :
  evaluate_children unit value evaluate_literal
    (node "f" [literal (VInt 1); literal (VStr "x")]) [] tt None
  = (Ok ([VInt 1; VStr "x"], None), [])
  /\ List.length [VInt 1; VStr "x"] = 2%nat.
Proof.
  split; [reflexivity |].
  exact (proj1 (proj2 (evaluate_children_length unit value evaluate_literal
                         (node "f" [literal (VInt 1); literal (VStr "x")])
                         [] tt None [VInt 1; VStr "x"] None [] eq_refl))
           eq_refl).
Defined.

(** The second child fails: the third is not reached. *)
Lemma evaluate_children_short_circuit_witness :
  evaluate_children unit value evaluate_literal
    (node "f" [literal (VInt 1); node "g" []; literal (VInt 3)]) [] tt None
  = (Ok ([VInt 1], Some "g is not a literal"), []).
Proof.
  exact (proj1 (evaluate_children_short_circuit unit value evaluate_literal
                  (node "f" [literal (VInt 1); node "g" []; literal (VInt 3)])
                  [literal (VInt 1)] [literal (VInt 3)] (node "g" [])
                  [] [] [] tt None [VInt 1] None
                  VNone (Some "g is not a literal")
                  eq_refl eq_refl eq_refl eq_refl) eq_refl).
Defined.

(** A list with a string among its numbers is not verified: the verifier
    raises. *)
Lemma verify_numeric_list_raises_witness :
  verify_numeric_list node_name (VList [VInt 1; VFloat 2%float])
    (node "f" []) 0 = Ok None
  /\ exists msg,
      verify_numeric_list node_name (VList [VInt 1; VStr "two"])
        (node "f" []) 0 = Raise (TypeError msg).
Proof.
  split.
  - exact (proj1 (proj1 (verify_numeric_list_raises node_name
                           [VInt 1; VFloat 2%float] (node "f" []) 0) eq_refl)).
  - exact (proj1 (proj2 (verify_numeric_list_raises node_name
                           [VInt 1; VStr "two"] (node "f" []) 0) eq_refl)).
Defined.

(** [parse_int] of [3.0] is [3], and of the string [3] is [0] with an
    error. *)
Lemma parse_int_spec_witness :
  (exists n, py_int (VFloat 3%float) = Ok n
             /\ parse_int opaque_repr (VFloat 3%float) = Ok (n, None))
  /\ parse_int opaque_repr (VStr "3")
     = Ok (0, Some "3 must be a integer.").
Proof.
  split.
  - exact (proj1 (parse_int_spec opaque_repr node_name (VFloat 3%float)
                    (node "f" []) 0) eq_refl).
  - exact (proj1 (proj2 (parse_int_spec opaque_repr node_name (VStr "3")
                           (node "f" []) 0)) eq_refl).
Defined.

Lemma person_keys : NoDup (map lower_latin (keys person)).
Proof.
  repeat constructor; simpl.
  - intros [H | []]. discriminate H.
  - intros [].
Defined.

Lemma person_values : Forall (fun kv => snd kv <> VNone) person.
Proof. repeat constructor; discriminate. Defined.

(** [name], [NAME] and [Name] read the same property. *)
Lemma access_property_case_insensitive_witness :
  access_property lower_latin (VDict person) "name" = (VStr "Ada", None)
  /\ access_property lower_latin (VDict person) "NAME"
     = access_property lower_latin (VDict person) "Name".
Proof.
  split.
  - apply (proj1 (access_property_case_insensitive lower_latin person
                    person_keys person_values) "name" "Name" (VStr "Ada")).
    + left. reflexivity.
    + reflexivity.
  - apply (proj2 (access_property_case_insensitive lower_latin person
                    person_keys person_values) "NAME" "Name").
    reflexivity.
Defined.

(** A property that no key matches reads as null. *)
Lemma access_property_null_safe_witness :
  access_property lower_latin (VDict person) "email" = (VNone, None).
Proof.
  apply (proj2 (proj2 (access_property_null_safe lower_latin
                         (VDict person) "email"))
           person eq_refl).
  intros k [<- | [<- | []]]; discriminate.
Defined.

(** A new property is set and read back. *)
Lemma set_property_access_property_witness :
  exists entries',
    set_property (VDict person) "email" (VStr "ada@example.org")
    = Ok ((VStr "ada@example.org", None), VDict entries')
    /\ access_property lower_latin (VDict entries') "email"
       = (VStr "ada@example.org", None)
    /\ (forall k, k <> "email" -> dict_get entries' k = dict_get person k)
    /\ keys entries'
       = (if in_dec str_dec "email" (keys person)
          then keys person else (keys person ++ ["email"])%list)
    /\ (forall instance,
          isinstance_dict instance = false ->
          (forall id, instance <> VObject id) ->
          exists msg,
            set_property instance "email" (VStr "ada@example.org")
            = Raise (TypeError msg)).
Proof.
  apply (set_property_access_property lower_latin person "email"
           (VStr "ada@example.org")).
  discriminate.
Defined.

(** [foreach] over a null collection raises, and so does [foreach] over a
    string. *)
Lemma foreach_unbound_result_witness :
  foreach opaque_repr unit value (fun local => local) node_name
    evaluate_literal foreach_null [] tt
  = (Raise result_unbound, [])
  /\ foreach opaque_repr unit value (fun local => local) node_name
       evaluate_literal
       (node "foreach"
          [literal (VStr "abc"); node ACCESSOR [literal (VStr "x")];
           literal (VInt 7)])
       [] tt
     = (Raise result_unbound, []).
Proof.
  split.
  - apply (proj1 (foreach_unbound_result opaque_repr unit value
                    (fun local => local) node_name evaluate_literal
                    foreach_null (literal VNone) [] [] tt VNone None
                    eq_refl eq_refl)).
    left. reflexivity.
  - exact (proj2 (foreach_unbound_result opaque_repr unit value
                    (fun local => local) node_name evaluate_literal
                    (node "foreach"
                       [literal (VStr "abc"); node ACCESSOR [literal (VStr "x")];
                        literal (VInt 7)])
                    (literal (VStr "abc")) [] [] tt (VStr "abc") None
                    eq_refl eq_refl)
             "x" eq_refl eq_refl).
Defined.

(** The second operand [0] ends the fold over [8, 0, 2]. *)
Lemma apply_sequence_with_error_fold_witness :
  apply_sequence_with_error unit value evaluate_literal divide None
    (node "div" [literal (VInt 8); literal (VInt 0); literal (VInt 2)]) [] tt
  = (Ok (VNone, Some "division by zero"), []).
Proof.
  exact (proj2 (apply_sequence_with_error_fold unit value evaluate_literal
                  None
                  (node "div"
                     [literal (VInt 8); literal (VInt 0); literal (VInt 2)])
                  [] tt)
           divide (VInt 8) [] (VInt 0) [VInt 2] (VInt 8)
           VNone (Some "division by zero") []
           eq_refl eq_refl eq_refl eq_refl).
Defined.

(** [dataUri] of a literal returns, and [dataUri] of [foreach(null, y, 7)]
    raises what its child raises. *)
Lemma DataUri_evaluator_total_witness :
  (exists v error state',
      DataUri_evaluator opaque_repr unit value node_name evaluate_literal
        (node "dataUri" [literal (VInt 5)]) [] tt
      = (Ok (v, error), state')
      /\ (error <> None -> v = VNone)
      /\ (error = None ->
          exists s,
            has_surrogate s = false
            /\ v = VStr ("data:text/plain;charset=utf-8;base64,"
                         ++ b64encode (utf8_bytes s))))
  /\ DataUri_evaluator opaque_repr unit value node_name evaluate_nested
       (node "dataUri" [foreach_null]) [] tt
     = (Raise result_unbound, []).
Proof.
  split.
  - apply (proj1 (DataUri_evaluator_total opaque_repr unit value node_name
                    evaluate_literal (node "dataUri" [literal (VInt 5)])
                    [] tt)).
    repeat constructor. apply evaluate_literal_returns.
  - exact (proj1 (proj2 (DataUri_evaluator_total opaque_repr unit value
                           node_name evaluate_nested
                           (node "dataUri" [foreach_null]) [] tt))
             foreach_null [] [] result_unbound eq_refl eq_refl).
Defined.

(** [formatTicks] of a string is an error, and [formatTicks] of
    [foreach(null, y, 7)] raises what its child raises. *)
Lemma FormatTicks_value_or_error_witness :
  FormatTicks_evaluator opaque_repr unit value evaluate_literal float
    instant_of format_instant
    (node "formatTicks" [literal (VStr "now")]) [] tt
  = (Ok (VNone, Some "formatTicks first argument {now} is not a number"), [])
  /\ FormatTicks_evaluator opaque_repr unit value evaluate_nested float
       instant_of format_instant
       (node "formatTicks" [foreach_null]) [] tt
     = (Raise result_unbound, []).
Proof.
  split.
  - exact (proj2 (proj2 (proj2
             (FormatTicks_value_or_error opaque_repr unit value
                evaluate_literal float instant_of format_instant
                (node "formatTicks" [literal (VStr "now")]) [] tt)))
             (VStr "now") [] [] eq_refl eq_refl).
  - exact (proj1 (proj2 (proj2
             (FormatTicks_value_or_error opaque_repr unit value
                evaluate_nested float instant_of format_instant
                (node "formatTicks" [foreach_null]) [] tt)))
             foreach_null [] [] result_unbound eq_refl eq_refl).
Defined.

(** [uriPort] of an absolute URI is its port, and of a relative one an
    error. *)
Lemma UriPort_evaluator_spec_witness :
  UriPort_evaluator opaque_repr unit value evaluate_literal parse_one_uri
    (node "uriPort" [literal (VStr "http://localhost:8080/x")]) [] tt
  = (Ok (VInt 8080, None), [])
  /\ UriPort_evaluator opaque_repr unit value evaluate_literal parse_one_uri
       (node "uriPort" [literal (VStr "x/y")]) [] tt
     = (Ok (VNone,
            Some "invalid operation, input uri should be an absolute URI"),
        []).
Proof.
  split.
  - apply (proj1 (proj2 (proj2
             (UriPort_evaluator_spec opaque_repr unit value evaluate_literal
                parse_one_uri
                (node "uriPort" [literal (VStr "http://localhost:8080/x")])
                (literal (VStr "http://localhost:8080/x")) [] [] tt
                (VStr "http://localhost:8080/x") None eq_refl eq_refl))
             "http://localhost:8080/x"
             (Build_ParseResult "localhost:8080" (Ok (Some 8080))) (Some 8080)
             eq_refl eq_refl eq_refl eq_refl)).
    discriminate.
  - apply (proj2 (proj2 (proj2
             (UriPort_evaluator_spec opaque_repr unit value evaluate_literal
                parse_one_uri
                (node "uriPort" [literal (VStr "x/y")])
                (literal (VStr "x/y")) [] [] tt
                (VStr "x/y") None eq_refl eq_refl))
             "x/y" (Build_ParseResult EmptyStr (Ok None)) None
             eq_refl eq_refl eq_refl eq_refl)).
    reflexivity.
Defined.

(** [Week] is a unit, and [fortnight] is not. *)
Lemma date_time_converter_spec_witness :
  (exists delta,
      date_time_converter lower_latin 2 "Week" true
      = ((Some delta, None), []))
  /\ date_time_converter lower_latin 2 "fortnight" true
     = ((None, Some "{fortnight} is not a valid time unit."),
        ["{fortnight} is not a valid time unit."]).
Proof.
  split.
  - apply (proj1 (date_time_converter_spec lower_latin 2 "Week" true)).
    simpl. do 4 right. left. reflexivity.
  - apply (proj1 (proj2 (date_time_converter_spec lower_latin 2
                           "fortnight" true))).
    simpl. intros H.
    repeat (destruct H as [H | H]; [discriminate H |]). exact H.
Defined.

Lemma json_missing_walks :
  walks opaque_repr unit value evaluate_literal tt
    json_missing EmptyStr [] json_missing EmptyStr [].
Proof. apply walks_here. Defined.

(** The error of the subscript of [json[missing()]] is the result. *)
Lemma try_accumulate_path_subscript_error_witness :
  try_accumulate_path opaque_repr unit value evaluate_literal json_missing [] tt
  = (Ok (None, None, Some "missing is not a literal"), []).
Proof.
  exact (try_accumulate_path_subscript_error opaque_repr unit value
           evaluate_literal json_missing [] tt json_missing EmptyStr [] []
           (node "json" []) (node "missing" []) [] VNone
           "missing is not a literal"
           json_missing_walks eq_refl eq_refl eq_refl).
Defined.

(** The path of [user.address.city]. *)
Lemma try_accumulate_path_accessors_witness :
  try_accumulate_path opaque_repr unit value evaluate_literal
    (accessor_chain "user" ["address"; "city"]) [] tt
  = (Ok (Some "user.address.city", None, None), []).
Proof.
  exact (try_accumulate_path_accessors opaque_repr unit value evaluate_literal
           "user" ["address"; "city"] [] tt eq_refl eq_refl).
Defined.
